(** * Batch image captioning endpoint (main.py): a shallow embedding

    The development follows [create_captions_for_images_in_folder] of
    main.py: the readiness gate on the global [captioner], the directory
    check, the listing and the extension filter, the per-file loop with its
    [try]/[except] blocks, and the summary message.

    Modelling conventions.
    - A Python [str] is a [string]; a character stands for the code point of
      the same number, so the strings covered are those over U+0000..U+00FF.
    - Exceptions are values of [Exn]; the handler runs in a small monad [M]
      that threads the trace of calls made to the outside world (file system,
      image decoder, caption engine) and carries either a value or a raised
      exception.
    - The outside world is a record of oracles ([World]). Logging is not
      modelled: it does not influence the response. *)

From Stdlib Require Import List String Ascii Bool Arith Lia ZArith DecimalString.
Import ListNotations.
Local Open Scope list_scope.
Local Open Scope string_scope.

(** ** Python string operations used by the handler *)

Module PyStr.

(** [str.lower] on one code point below 256: A..Z and the Latin-1 capitals
    U+00C0..U+00DE (U+00D7, the multiplication sign, apart) move up by 32. *)
Definition lower_char (c : ascii) : ascii :=
  let n := nat_of_ascii c in
  if (((65 <=? n) && (n <=? 90))
      || ((192 <=? n) && (n <=? 222) && negb (n =? 215)))%nat
  then ascii_of_nat (n + 32)
  else c.

Fixpoint lower (s : string) : string :=
  match s with
  | EmptyString => EmptyString
  | String c r => String (lower_char c) (lower r)
  end.

(** [s.startswith(p)] *)
Fixpoint startswith (s p : string) : bool :=
  match p, s with
  | EmptyString, _ => true
  | String _ _, EmptyString => false
  | String a p', String b s' => Ascii.eqb a b && startswith s' p'
  end.

Fixpoint drop (n : nat) (s : string) : string :=
  match n, s with
  | O, _ => s
  | S _, EmptyString => EmptyString
  | S n', String _ r => drop n' r
  end.

(** [s.endswith(suffix)]: the last [len(suffix)] characters of [s] are
    [suffix]. *)
Definition endswith (s suffix : string) : bool :=
  (String.length suffix <=? String.length s)%nat
  && String.eqb (drop (String.length s - String.length suffix) s) suffix.

(** [s.endswith(t)] for a tuple [t] of suffixes: some member is a suffix. *)
Definition endswith_any (s : string) (suffixes : list string) : bool :=
  existsb (endswith s) suffixes.

(** [str.isspace] on one code point below 256. *)
Definition isspace (c : ascii) : bool :=
  let n := nat_of_ascii c in
  (((9 <=? n) && (n <=? 13)) || ((28 <=? n) && (n <=? 32))
   || (n =? 133) || (n =? 160))%nat.

Fixpoint lstrip (s : string) : string :=
  match s with
  | EmptyString => EmptyString
  | String c r => if isspace c then lstrip r else s
  end.

(** [rstrip] keeps a character when it is not a space or when something
    survives to its right. *)
Fixpoint rstrip (s : string) : string :=
  match s with
  | EmptyString => EmptyString
  | String c r =>
      match rstrip r with
      | EmptyString => if isspace c then EmptyString else String c EmptyString
      | r' => String c r'
      end
  end.

(** [s.strip()] *)
Definition strip (s : string) : string := rstrip (lstrip s).

(** [str(n)] for a non-negative integer. *)
Definition of_nat (n : nat) : string := NilEmpty.string_of_uint (Nat.to_uint n).

End PyStr.

(** ** Configuration *)

Definition SUPPORTED_EXTENSIONS : list string :=
  [".png"; ".jpg"; ".jpeg"; ".bmp"; ".gif"; ".webp"].

(** [str(SUPPORTED_EXTENSIONS)], the tuple as an f-string prints it. *)
Definition SUPPORTED_EXTENSIONS_str : string :=
  "('.png', '.jpg', '.jpeg', '.bmp', '.gif', '.webp')".

(** The filter of line 128:
    [[f for f in all_files_in_dir if f.lower().endswith(SUPPORTED_EXTENSIONS)]] *)
Definition is_supported (f : string) : bool :=
  PyStr.endswith_any (PyStr.lower f) SUPPORTED_EXTENSIONS.

Definition image_filenames (all_files_in_dir : list string) : list string :=
  filter is_supported all_files_in_dir.

(** ** Python values returned by the caption engine

    The engine is an arbitrary callable ([Optional[Any]]), so the handler
    inspects its output dynamically. The values covered are those built from
    [None], [bool], [int], [str], [list], [tuple] and [dict]: the JSON-like
    values a pipeline returns. Of these only [str] has a [strip] method.
    Values of other classes ([bytes] and [bytearray], which also have one,
    among them) are outside this type, and a statement that depends on the
    class of the caption says so. *)

Unset Elimination Schemes.
Inductive PyVal : Type :=
| PyNone
| PyBool (b : bool)
| PyInt (z : Z)
| PyString (s : string)
| PyList (items : list PyVal)
| PyTuple (items : list PyVal)
| PyDict (entries : list (PyVal * PyVal)).
Set Elimination Schemes.

(** Exceptions, by the classes the handler tells apart. [FileNotFoundError]
    is a subclass of [OSError]; every class here is a subclass of
    [Exception]. The [text] is [str(e)]. *)
Inductive Exn : Type :=
| HTTPException (status_code : nat) (detail : string)
| FileNotFoundError (text : string)
| OSError (text : string)
| AttributeError (text : string)
| OtherException (text : string).

(** [str(e)]. An [HTTPException] prints as [f"{status_code}: {detail}"]; for
    the other classes the text carried is [str(e)] itself. *)
Definition exn_str (e : Exn) : string :=
  match e with
  | HTTPException status_code detail =>
      PyStr.of_nat status_code ++ ": " ++ detail
  | FileNotFoundError t | OSError t | AttributeError t | OtherException t => t
  end.

Definition is_FileNotFoundError (e : Exn) : bool :=
  match e with FileNotFoundError _ => true | _ => false end.

Definition is_OSError (e : Exn) : bool :=
  match e with FileNotFoundError _ | OSError _ => true | _ => false end.

Module Py.

(** [bool(v)] *)
Definition truthy (v : PyVal) : bool :=
  match v with
  | PyNone => false
  | PyBool b => b
  | PyInt z => negb (Z.eqb z 0)
  | PyString s => negb (String.eqb s "")
  | PyList l | PyTuple l => negb (Nat.eqb (List.length l) 0)
  | PyDict d => negb (Nat.eqb (List.length d) 0)
  end.

(** [isinstance(v, list)] *)
Definition is_list (v : PyVal) : bool :=
  match v with PyList _ => true | _ => false end.

(** [isinstance(v, dict)] *)
Definition is_dict (v : PyVal) : bool :=
  match v with PyDict _ => true | _ => false end.

(** [len(v)], read only behind [isinstance(v, list)]. *)
Definition len (v : PyVal) : nat :=
  match v with
  | PyString s => String.length s
  | PyList l | PyTuple l => List.length l
  | PyDict d => List.length d
  | _ => 0
  end.

(** [v[0]], read only on a non-empty list. *)
Definition first (v : PyVal) : PyVal :=
  match v with
  | PyList (x :: _) | PyTuple (x :: _) => x
  | _ => PyNone
  end.

(** A key equals the [str] [name]. *)
Definition key_is (name : string) (k : PyVal) : bool :=
  match k with PyString s => String.eqb s name | _ => false end.

(** [d[name]] for a dict [d]; [None] stands for [KeyError]. *)
Fixpoint lookup (name : string) (d : list (PyVal * PyVal)) : option PyVal :=
  match d with
  | [] => None
  | (k, v) :: r => if key_is name k then Some v else lookup name r
  end.

(** [name in v], read only behind [isinstance(v, dict)]. *)
Definition contains (name : string) (v : PyVal) : bool :=
  match v with
  | PyDict d => match lookup name d with Some _ => true | None => false end
  | _ => false
  end.

(** [v[name]]: [KeyError] on a dict without the key, [TypeError] on a
    value that cannot be indexed by a [str]. *)
Definition getitem (name : string) (v : PyVal) : Exn + PyVal :=
  match v with
  | PyDict d =>
      match lookup name d with
      | Some x => inr x
      | None => inl (OtherException ("'" ++ name ++ "'"))
      end
  | _ => inl (OtherException "indices must be integers")
  end.

(** [type(v).__name__] *)
Definition type_name (v : PyVal) : string :=
  match v with
  | PyNone => "NoneType"
  | PyBool _ => "bool"
  | PyInt _ => "int"
  | PyString _ => "str"
  | PyList _ => "list"
  | PyTuple _ => "tuple"
  | PyDict _ => "dict"
  end.

(** [v.strip()]: defined on [str]; on the other types the attribute lookup
    raises [AttributeError]. *)
Definition strip (v : PyVal) : Exn + string :=
  match v with
  | PyString s => inr (PyStr.strip s)
  | _ => inl (AttributeError
                ("'" ++ type_name v ++ "' object has no attribute 'strip'"))
  end.

(** Two hexadecimal digits, lower case. *)
Definition hex_digit (n : nat) : string :=
  String (ascii_of_nat (if (n <? 10)%nat then 48 + n else 87 + n)) "".

Definition hex2 (n : nat) : string :=
  hex_digit (Nat.div n 16) ++ hex_digit (Nat.modulo n 16).

Fixpoint contains_char (c : ascii) (s : string) : bool :=
  match s with
  | EmptyString => false
  | String d r => Ascii.eqb c d || contains_char c r
  end.

(** [str.isprintable] on one code point below 256: the controls
    U+0000..U+001F and U+007F..U+009F, the no-break space U+00A0 and the soft
    hyphen U+00AD are not printable. *)
Definition isprintable (c : ascii) : bool :=
  let n := nat_of_ascii c in
  negb ((n <? 32) || ((127 <=? n) && (n <=? 160)) || (n =? 173))%nat.

(** One character inside [repr(s)], [quote] being the delimiter chosen. *)
Definition repr_char (quote c : ascii) : string :=
  let n := nat_of_ascii c in
  if Ascii.eqb c quote || (n =? 92)%nat then String "\" (String c "")
  else if (n =? 9)%nat then "\t"
  else if (n =? 10)%nat then "\n"
  else if (n =? 13)%nat then "\r"
  else if isprintable c then String c ""
  else "\x" ++ hex2 n.

Fixpoint repr_chars (quote : ascii) (s : string) : string :=
  match s with
  | EmptyString => EmptyString
  | String c r => repr_char quote c ++ repr_chars quote r
  end.

(** [repr(s)] for a [str]: single quotes, unless the text holds a single
    quote and no double quote. *)
Definition repr_str (s : string) : string :=
  let quote :=
    if contains_char "'" s && negb (contains_char "034" s)
    then "034"%char else "'"%char in
  String quote (repr_chars quote s ++ String quote "").

(** [repr(z)] for an [int]. *)
Definition repr_int (z : Z) : string := NilEmpty.string_of_int (Z.to_int z).

(** [repr(v)] *)
Fixpoint repr (v : PyVal) : string :=
  match v with
  | PyNone => "None"
  | PyBool true => "True"
  | PyBool false => "False"
  | PyInt z => repr_int z
  | PyString s => repr_str s
  | PyList l =>
      "[" ++ (fix items (l : list PyVal) : string :=
                match l with
                | [] => ""
                | [x] => repr x
                | x :: r => repr x ++ ", " ++ items r
                end) l ++ "]"
  | PyTuple l =>
      match l with
      | [x] => "(" ++ repr x ++ ",)"
      | _ =>
          "(" ++ (fix items (l : list PyVal) : string :=
                    match l with
                    | [] => ""
                    | [x] => repr x
                    | x :: r => repr x ++ ", " ++ items r
                    end) l ++ ")"
      end
  | PyDict d =>
      "{" ++ (fix entries (d : list (PyVal * PyVal)) : string :=
                match d with
                | [] => ""
                | [(k, x)] => repr k ++ ": " ++ repr x
                | (k, x) :: r => repr k ++ ": " ++ repr x ++ ", " ++ entries r
                end) d ++ "}"
  end.

(** [str(v)]: the text itself for a [str], [repr(v)] for the rest. *)
Definition str (v : PyVal) : string :=
  match v with
  | PyString s => s
  | _ => repr v
  end.

End Py.

(** ** [os.path.join] for two components, as posixpath defines it *)

Definition os_path_join (a b : string) : string :=
  if PyStr.startswith b "/" then b
  else if String.eqb a "" || PyStr.endswith a "/" then a ++ b
  else a ++ "/" ++ b.

(** ** The outside world *)

Record Image : Type := { width : nat; height : nat; pixels : list nat }.

(** What the pipeline object does when called on an image with
    [generate_kwargs=GENERATION_ARGS]: it raises or returns a value. *)
Definition Engine : Type := Image -> Exn + PyVal.

Record World : Type := {
  (** the module-level [captioner]: [None] until startup succeeds *)
  captioner : option Engine;
  (** [os.path.isdir] *)
  isdir : string -> bool;
  (** [os.listdir]: the entry names, or the exception raised *)
  listdir : string -> Exn + list string;
  (** [os.path.abspath] *)
  abspath : string -> string;
  (** [Image.open(path).convert("RGB")]: the exception raised or the object
      returned *)
  image_open : string -> Exn + option Image;
  (** [str(v)], as an f-string inserts a value *)
  format_value : PyVal -> string
}.

(** Calls made to the outside world, in the order they are made. *)
Inductive Event : Type :=
| CallIsDir (path : string)
| CallListDir (path : string)
| CallImageOpen (path : string)
| CallCaptioner (img : Image).

(** ** The monad: a raised exception or a value, and the calls made *)

Definition M (A : Type) : Type := (Exn + A) * list Event.

Definition ret {A} (a : A) : M A := (inr a, []).

Definition raise {A} (e : Exn) : M A := (inl e, []).

Definition bind {A B} (m : M A) (k : A -> M B) : M B :=
  match m with
  | (inl e, t) => (inl e, t)
  | (inr a, t) => let (r, t') := k a in (r, (t ++ t')%list)
  end.

(** [try: m  except Exception as e: h e] *)
Definition try_except {A} (m : M A) (h : Exn -> M A) : M A :=
  match m with
  | (inl e, t) => let (r, t') := h e in (r, (t ++ t')%list)
  | (inr a, t) => (inr a, t)
  end.

(** An outside call: logged, then its outcome. *)
Definition call {A} (ev : Event) (outcome : Exn + A) : M A := (outcome, [ev]).

(** A pure operation that may raise. *)
Definition lift {A} (outcome : Exn + A) : M A := (outcome, []).

Notation "x <- m ;; k" := (bind m (fun x => k))
  (at level 61, m at next level, right associativity).
Notation "' p <- m ;; k" := (bind m (fun x => let 'p := x in k))
  (at level 61, p pattern, m at next level, right associativity).

(** ** Request and response models *)

Record ImageCaptionRequest : Type := { folder_location : string }.

Record ImageCaptionResponseItem : Type := {
  image_path : string;
  description : string
}.

Record CaptionSummaryResponse : Type := {
  total_images_found : nat;
  successfully_captioned : nat;
  results : list ImageCaptionResponseItem;
  message : string;
  errors : list string
}.

(** ** The summary message (lines 205-217) *)

Module Msg.

Definition unavailable : string :=
  "Captioning service is unavailable. Model not loaded.".

Definition invalid_folder (folder_path : string) : string :=
  "The folder '" ++ folder_path ++ "' does not exist or is not a directory.".

Definition unreadable (folder_path : string) : string :=
  "Could not read directory contents: " ++ folder_path.

Definition no_images (folder_path : string) : string :=
  "No images with supported extensions " ++ SUPPORTED_EXTENSIONS_str
  ++ " found in the folder: " ++ folder_path.

Definition all_succeeded (total : nat) : string :=
  "Successfully generated captions for all " ++ PyStr.of_nat total
  ++ " found image(s).".

Definition some_succeeded (count total : nat) : string :=
  "Generated captions for " ++ PyStr.of_nat count ++ " out of "
  ++ PyStr.of_nat total
  ++ " found image(s). See errors for details on failures.".

Definition none_succeeded (total : nat) : string :=
  "Attempted to process " ++ PyStr.of_nat total
  ++ " image(s), but no captions were successfully generated. See errors for details.".

Definition nothing_processed : string := "No images were processed or found.".

Definition additional_info : string :=
  " Some images may have failed processing without explicit error messages being captured in the error list.".

(** the per-file messages, each appended to [errors] as
    [f"{filename}: {msg}"] *)
Definition not_found (abs : string) : string :=
  "Image file not found at '" ++ abs ++ "'. Skipping.".

Definition load_failed (filename : string) (e : Exn) : string :=
  "An unexpected error occurred while loading image '" ++ filename ++ "': "
  ++ exn_str e ++ ". Skipping.".

Definition image_is_none (filename : string) : string :=
  "Image object is None after attempting to load '" ++ filename
  ++ "'. Skipping.".

Definition unexpected_format (filename shown : string) : string :=
  "Caption output format unexpected for '" ++ filename
  ++ "'. First element: " ++ shown ++ ". Skipping.".

Definition empty_output (filename : string) : string :=
  "Captioner returned empty or None output for '" ++ filename
  ++ "'. Skipping.".

Definition caption_failed (filename : string) (e : Exn) : string :=
  "An error occurred during caption generation for '" ++ filename ++ "': "
  ++ exn_str e ++ ".".

Definition entry (filename msg : string) : string := filename ++ ": " ++ msg.

End Msg.

Arguments Msg.unavailable : simpl never.
Arguments Msg.invalid_folder : simpl never.
Arguments Msg.unreadable : simpl never.
Arguments Msg.no_images : simpl never.
Arguments Msg.all_succeeded : simpl never.
Arguments Msg.some_succeeded : simpl never.
Arguments Msg.none_succeeded : simpl never.
Arguments Msg.nothing_processed : simpl never.
Arguments Msg.additional_info : simpl never.
Arguments Msg.not_found : simpl never.
Arguments Msg.load_failed : simpl never.
Arguments Msg.image_is_none : simpl never.
Arguments Msg.unexpected_format : simpl never.
Arguments Msg.empty_output : simpl never.
Arguments Msg.caption_failed : simpl never.
Arguments Msg.entry : simpl never.

(** Lines 205-212: the [if]/[elif] chain on the two counts. *)
Definition base_message (successfully_captioned_count total : nat) : string :=
  if ((successfully_captioned_count =? total) && (0 <? total))%nat then
    Msg.all_succeeded total
  else if (0 <? successfully_captioned_count)%nat then
    Msg.some_succeeded successfully_captioned_count total
  else if ((0 <? total) && (successfully_captioned_count =? 0))%nat then
    Msg.none_succeeded total
  else Msg.nothing_processed.

(** Line 214: [not errors and count < total and total > 0]. *)
Definition discrepancy (successfully_captioned_count total : nat)
    (errs : list string) : bool :=
  (negb (0 <? List.length errs) && (successfully_captioned_count <? total)
   && (0 <? total))%nat.

(** Lines 202-217 as a function of the three aggregates. *)
Definition summary_message (total : nat)
    (res : list ImageCaptionResponseItem) (errs : list string) : string :=
  let successfully_captioned_count := List.length res in
  let message := base_message successfully_captioned_count total in
  if discrepancy successfully_captioned_count total errs
  then message ++ Msg.additional_info
  else message.

(** ** The per-file loop (lines 145-200) *)

Section Handler.

Variable w : World.

Definition os_path_isdir (path : string) : M bool :=
  call (CallIsDir path) (inr (isdir w path)).

Definition os_listdir (path : string) : M (list string) :=
  call (CallListDir path) (listdir w path).

Definition Image_open_convert (path : string) : M (option Image) :=
  call (CallImageOpen path) (image_open w path).

Definition call_captioner (engine : Engine) (img : Image) : M PyVal :=
  call (CallCaptioner img) (engine img).

(** The two accumulators the loop appends to. *)
Definition Acc : Type := (list ImageCaptionResponseItem * list string)%type.

Definition append_result (acc : Acc) (r : ImageCaptionResponseItem) : Acc :=
  ((fst acc ++ [r])%list, snd acc).

Definition append_error (acc : Acc) (e : string) : Acc :=
  (fst acc, (snd acc ++ [e])%list).

(** Lines 175-200: the caption [try] block with its [except Exception]. *)
Definition caption_step (engine : Engine) (filename abs : string)
    (img : Image) (acc : Acc) : M Acc :=
  try_except
    (captions_output <- call_captioner engine img ;;
     if Py.truthy captions_output && Py.is_list captions_output
        && (0 <? Py.len captions_output)%nat
     then
       let first_result := Py.first captions_output in
       if Py.is_dict first_result && Py.contains "generated_text" first_result
       then
         text_value <- lift (Py.getitem "generated_text" first_result) ;;
         generated_text <- lift (Py.strip text_value) ;;
         ret (append_result acc
                {| image_path := abs; description := generated_text |})
       else
         ret (append_error acc
                (Msg.entry filename
                   (Msg.unexpected_format filename
                      (format_value w first_result))))
     else
       ret (append_error acc
              (Msg.entry filename (Msg.empty_output filename))))
    (fun e =>
       ret (append_error acc (Msg.entry filename (Msg.caption_failed filename e)))).

(** One iteration of the [for] loop; each [continue] is a return of the
    accumulators as they stand. *)
Definition process_file (engine : Engine) (folder_path filename : string)
    (acc : Acc) : M Acc :=
  let current_image_path_relative := os_path_join folder_path filename in
  let current_image_path_absolute := abspath w current_image_path_relative in
  loaded <-
    try_except
      (img <- Image_open_convert current_image_path_relative ;; ret (inr img))
      (fun e =>
         if is_FileNotFoundError e then
           ret (inl (append_error acc
                       (Msg.entry filename
                          (Msg.not_found current_image_path_absolute))))
         else
           ret (inl (append_error acc
                       (Msg.entry filename (Msg.load_failed filename e))))) ;;
  match loaded with
  | inl acc' => ret acc'
  | inr None =>
      ret (append_error acc (Msg.entry filename (Msg.image_is_none filename)))
  | inr (Some img) =>
      caption_step engine filename current_image_path_absolute img acc
  end.

Fixpoint process_files (engine : Engine) (folder_path : string)
    (filenames : list string) (acc : Acc) : M Acc :=
  match filenames with
  | [] => ret acc
  | filename :: rest =>
      acc' <- process_file engine folder_path filename acc ;;
      process_files engine folder_path rest acc'
  end.

(** ** The endpoint (lines 90-227) *)
Definition create_captions_for_images_in_folder
    (request : ImageCaptionRequest) : M CaptionSummaryResponse :=
  match captioner w with
  | None => raise (HTTPException 503 Msg.unavailable)
  | Some engine =>
      let folder_path := folder_location request in
      is_directory <- os_path_isdir folder_path ;;
      if negb is_directory then
        raise (HTTPException 400 (Msg.invalid_folder folder_path))
      else
        all_files_in_dir <-
          try_except (os_listdir folder_path)
            (fun e =>
               if is_OSError e
               then raise (HTTPException 500 (Msg.unreadable folder_path))
               else raise e) ;;
        let filenames := image_filenames all_files_in_dir in
        let total := List.length filenames in
        if (total =? 0)%nat then
          ret {| total_images_found := 0;
                 successfully_captioned := 0;
                 results := [];
                 message := Msg.no_images folder_path;
                 errors := [] |}
        else
          acc <- process_files engine folder_path filenames ([], []) ;;
          let successfully_captioned_count := List.length (fst acc) in
          ret {| total_images_found := total;
                 successfully_captioned := successfully_captioned_count;
                 results := fst acc;
                 message := summary_message total (fst acc) (snd acc);
                 errors := snd acc |}
  end.

End Handler.

(** ** Observations on a run *)

(** The response: the report returned, or the exception that leaves the
    handler. *)
Definition response (w : World) (request : ImageCaptionRequest)
  : Exn + CaptionSummaryResponse :=
  fst (create_captions_for_images_in_folder w request).

(** The calls the handler made to the outside world. *)
Definition calls (w : World) (request : ImageCaptionRequest) : list Event :=
  snd (create_captions_for_images_in_folder w request).

(** The paths given to the image decoder, in order. *)
Fixpoint opened (t : list Event) : list string :=
  match t with
  | [] => []
  | CallImageOpen p :: r => p :: opened r
  | _ :: r => opened r
  end.

(** ** What it means for a candidate to be captioned

    These definitions do not follow the handler's control flow: they read the
    oracles directly, and the handler is proved against them. *)

(** An engine output is well-formed when it is a non-empty list whose first
    element is a dict holding a [str] under ['generated_text']; this gives
    that text. *)
Definition generated_text_of (out : PyVal) : option string :=
  match out with
  | PyList (PyDict d :: _) =>
      match Py.lookup "generated_text" d with
      | Some (PyString s) => Some s
      | _ => None
      end
  | _ => None
  end.

(** The text the engine produces for [filename], when the file decodes to an
    image and the engine returns a well-formed output for it. *)
Definition caption_of (w : World) (engine : Engine)
    (folder_path filename : string) : option string :=
  match image_open w (os_path_join folder_path filename) with
  | inr (Some img) =>
      match engine img with
      | inr out => generated_text_of out
      | inl _ => None
      end
  | _ => None
  end.

Definition captioned (w : World) (engine : Engine)
    (folder_path filename : string) : bool :=
  match caption_of w engine folder_path filename with
  | Some _ => true
  | None => false
  end.

(** The candidates that are captioned, and those that are not, in listing
    order. *)
Definition succeeded (w : World) (engine : Engine) (folder_path : string)
    (candidates : list string) : list string :=
  filter (captioned w engine folder_path) candidates.

Definition failed (w : World) (engine : Engine) (folder_path : string)
    (candidates : list string) : list string :=
  filter (fun f => negb (captioned w engine folder_path f)) candidates.

(** [r] is the result entry of [filename]: its absolute path and the trimmed
    text. *)
Definition result_of (w : World) (engine : Engine) (folder_path : string)
    (filename : string) (r : ImageCaptionResponseItem) : Prop :=
  exists text,
    caption_of w engine folder_path filename = Some text
    /\ r = {| image_path := abspath w (os_path_join folder_path filename);
              description := PyStr.strip text |}.

(** [e] is an error entry of [filename]: the string [f"{filename}: {msg}"]. *)
Definition error_of (filename : string) (e : string) : Prop :=
  exists msg, e = filename ++ ": " ++ msg.

(** The calls one iteration makes: the decoder, then the engine when an
    image came back. *)
Definition file_calls (w : World) (engine : Engine)
    (folder_path filename : string) : list Event :=
  let p := os_path_join folder_path filename in
  CallImageOpen p ::
  match image_open w p with
  | inr (Some img) => [CallCaptioner img]
  | _ => []
  end.

(** A name matches the allow-list case-insensitively: it ends with a tail
    that equals one of the extensions once case is folded. *)
Definition has_supported_extension (name : string) : Prop :=
  exists stem tail ext,
    In ext SUPPORTED_EXTENSIONS /\ name = stem ++ tail /\ PyStr.lower tail = ext.

(** An entry of [folder_path] is a subdirectory. *)
Definition is_subdirectory (w : World) (folder_path name : string) : bool :=
  isdir w (os_path_join folder_path name).

(** The engine returns a well-formed output for [img]. *)
Definition engine_accepts (engine : Engine) (img : Image) : bool :=
  match engine img with
  | inr out => match generated_text_of out with Some _ => true | None => false end
  | inl _ => false
  end.

(** Two invocations see the same directory: the same answers from the file
    system and the decoder for [folder_path] and its entries, and the same
    rendering of paths and values. *)
Definition unchanged (w1 w2 : World) (folder_path : string) : Prop :=
  isdir w1 folder_path = isdir w2 folder_path
  /\ listdir w1 folder_path = listdir w2 folder_path
  /\ (forall f, image_open w1 (os_path_join folder_path f)
                = image_open w2 (os_path_join folder_path f))
  /\ (forall f, abspath w1 (os_path_join folder_path f)
                = abspath w2 (os_path_join folder_path f))
  /\ (forall v, format_value w1 v = format_value w2 v).

(** ** Concrete worlds

    A small file system: [/srv/photos] holds a valid image [a.jpg], a text
    file [b.txt] and a corrupted [c.png]; [/srv/empty] is an empty directory;
    [/srv/albums] holds a subdirectory named [holiday.png] and a file
    [notes]; nothing else exists. *)

Module Scenario.

Definition img_a : Image := {| width := 2; height := 1; pixels := [10; 20] |}.

Definition fs_isdir (p : string) : bool :=
  String.eqb p "/srv/photos" || String.eqb p "/srv/empty"
  || String.eqb p "/srv/albums" || String.eqb p "/srv/albums/holiday.png".

Definition fs_listdir (p : string) : Exn + list string :=
  if String.eqb p "/srv/photos" then inr ["a.jpg"; "b.txt"; "c.png"]
  else if String.eqb p "/srv/empty" then inr []
  else if String.eqb p "/srv/albums" then inr ["holiday.png"; "notes"]
  else if String.eqb p "/srv/albums/holiday.png" then inr []
  else inl (FileNotFoundError
              ("[Errno 2] No such file or directory: '" ++ p ++ "'")).

Definition fs_image_open (p : string) : Exn + option Image :=
  if String.eqb p "/srv/photos/a.jpg" then inr (Some img_a)
  else if String.eqb p "/srv/photos/c.png" then
    inl (OtherException ("cannot identify image file '" ++ p ++ "'"))
  else if String.eqb p "/srv/photos/b.txt" || String.eqb p "/srv/albums/notes"
  then inl (OtherException ("cannot identify image file '" ++ p ++ "'"))
  else if String.eqb p "/srv/albums/holiday.png" then
    inl (OSError ("[Errno 21] Is a directory: '" ++ p ++ "'"))
  else inl (FileNotFoundError
              ("[Errno 2] No such file or directory: '" ++ p ++ "'")).

(** [str(v)], as Python prints the values of [PyVal]. *)
Definition show (v : PyVal) : string := Py.str v.

(** An engine that captions every image. *)
Definition steady : Engine :=
  fun _ => inr (PyList [PyDict [(PyString "generated_text",
                                 PyString " a cat on a sofa ")]]).

(** An engine that fails on every image. *)
Definition exhausted : Engine :=
  fun _ => inl (OtherException "CUDA out of memory").

(** The file system above, every path already absolute, with the given
    global [captioner]. *)
Definition world (c : option Engine) : World :=
  {| captioner := c;
     isdir := fs_isdir;
     listdir := fs_listdir;
     abspath := fun p => p;
     image_open := fs_image_open;
     format_value := show |}.

Definition ready : World := world (Some steady).
Definition flaky : World := world (Some exhausted).
Definition down : World := world None.

Definition photos : ImageCaptionRequest := {| folder_location := "/srv/photos" |}.
Definition empty : ImageCaptionRequest := {| folder_location := "/srv/empty" |}.
Definition albums : ImageCaptionRequest := {| folder_location := "/srv/albums" |}.
Definition missing : ImageCaptionRequest := {| folder_location := "/srv/nowhere" |}.

Definition item_a : ImageCaptionResponseItem :=
  {| image_path := "/srv/photos/a.jpg"; description := "a cat on a sofa" |}.

Definition error_c : string :=
  Msg.entry "c.png"
    (Msg.load_failed "c.png"
       (OtherException "cannot identify image file '/srv/photos/c.png'")).

Definition error_a : string :=
  Msg.entry "a.jpg"
    (Msg.caption_failed "a.jpg" (OtherException "CUDA out of memory")).

Definition error_holiday : string :=
  Msg.entry "holiday.png"
    (Msg.load_failed "holiday.png"
       (OSError "[Errno 21] Is a directory: '/srv/albums/holiday.png'")).

(** The report for [/srv/photos] with the steady engine. *)
Definition photos_report : CaptionSummaryResponse :=
  {| total_images_found := 2;
     successfully_captioned := 1;
     results := [item_a];
     message := Msg.some_succeeded 1 2;
     errors := [error_c] |}.

(** The report for [/srv/photos] with the exhausted engine. *)
Definition photos_report_flaky : CaptionSummaryResponse :=
  {| total_images_found := 2;
     successfully_captioned := 0;
     results := [];
     message := Msg.none_succeeded 2;
     errors := [error_a; error_c] |}.

Definition empty_report : CaptionSummaryResponse :=
  {| total_images_found := 0;
     successfully_captioned := 0;
     results := [];
     message := Msg.no_images "/srv/empty";
     errors := [] |}.

Definition albums_report : CaptionSummaryResponse :=
  {| total_images_found := 1;
     successfully_captioned := 0;
     results := [];
     message := Msg.none_succeeded 1;
     errors := [error_holiday] |}.

End Scenario.

(** ** Startup (lines 65-85)

    [pipeline("image-to-text", model=MODEL_NAME)] either raises or returns the
    pipeline object; the handler then reads [captioner.device] for a log line
    inside the same [try] block, so a failure of that read is caught like a
    failure of the construction. *)

Record Pipeline : Type := {
  pipeline_engine : Engine;
  (** [str(captioner.device)], or the exception reading it raises *)
  pipeline_device : Exn + string
}.

(** The value of the global [captioner] when [startup_event] returns. *)
Definition startup_captioner (built : Exn + Pipeline) : option Engine :=
  match built with
  | inr p =>
      match pipeline_device p with
      | inr _ => Some (pipeline_engine p)
      | inl _ => None
      end
  | inl _ => None
  end.

(** [startup_event]: the world after startup differs from the world before
    in the global [captioner] alone. *)
Definition startup_event (built : Exn + Pipeline) (w : World) : World :=
  {| captioner := startup_captioner built;
     isdir := isdir w;
     listdir := listdir w;
     abspath := abspath w;
     image_open := image_open w;
     format_value := format_value w |}.

(** ** Further observations on a trace *)

(** The images handed to the engine, in order. *)
Fixpoint engine_calls (t : list Event) : list Image :=
  match t with
  | [] => []
  | CallCaptioner img :: r => img :: engine_calls r
  | _ :: r => engine_calls r
  end.

(** The paths given to [os.listdir], in order. *)
Fixpoint listed (t : list Event) : list string :=
  match t with
  | [] => []
  | CallListDir p :: r => p :: listed r
  | _ :: r => listed r
  end.

(** The paths given to [os.path.isdir], in order. *)
Fixpoint dir_checks (t : list Event) : list string :=
  match t with
  | [] => []
  | CallIsDir p :: r => p :: dir_checks r
  | _ :: r => dir_checks r
  end.

(** The images the candidates decode to, in listing order. *)
Definition decoded_images (w : World) (folder_path : string)
    (candidates : list string) : list Image :=
  flat_map (fun f => match image_open w (os_path_join folder_path f) with
                     | inr (Some img) => [img]
                     | _ => []
                     end) candidates.

(** ** Whitespace at the ends of a string *)

Definition starts_with_space (s : string) : bool :=
  match s with
  | EmptyString => false
  | String c _ => PyStr.isspace c
  end.

Fixpoint ends_with_space (s : string) : bool :=
  match s with
  | EmptyString => false
  | String c EmptyString => PyStr.isspace c
  | String _ r => ends_with_space r
  end.

(** Every caption the engine returns under ['generated_text'] in the first
    element of its output is a [str]. *)
Definition returns_str_captions (engine : Engine) : Prop :=
  forall img d rest v,
    engine img = inr (PyList (PyDict d :: rest)) ->
    Py.lookup "generated_text" d = Some v ->
    exists s, v = PyString s.

(** Every character is whitespace (the empty string included). *)
Fixpoint blank (s : string) : bool :=
  match s with
  | EmptyString => true
  | String c r => PyStr.isspace c && blank r
  end.

(** ** More concrete worlds *)

Module Outage.

(** [/srv/locked] is a directory that cannot be read. *)
Definition locked_error : Exn :=
  OSError "[Errno 13] Permission denied: '/srv/locked'".

Definition world : World :=
  {| captioner := Some Scenario.steady;
     isdir := fun p => String.eqb p "/srv/locked";
     listdir := fun _ => inl locked_error;
     abspath := fun p => p;
     image_open := fun p => inl (FileNotFoundError p);
     format_value := Scenario.show |}.

Definition locked : ImageCaptionRequest := {| folder_location := "/srv/locked" |}.

(** A pipeline that loads on the CPU. *)
Definition loaded : Pipeline :=
  {| pipeline_engine := Scenario.steady; pipeline_device := inr "cpu" |}.

(** The construction of the pipeline fails: the model cannot be fetched. *)
Definition unreachable : Exn + Pipeline :=
  inl (OSError "We couldn't connect to 'https://huggingface.co'").

(** Engines with ill-formed outputs. *)
Definition silent : Engine := fun _ => inr (PyList []).

Definition keyless : Engine :=
  fun _ => inr (PyList [PyDict [(PyString "text", PyString "a cat")]]).

Definition numeric : Engine :=
  fun _ => inr (PyList [PyDict [(PyString "generated_text", PyInt 7)]]).

(** An engine that returns two captions, and one that returns only
    whitespace. *)
Definition verbose : Engine :=
  fun _ => inr (PyList [PyDict [(PyString "generated_text",
                                 PyString " a cat on a sofa ")];
                        PyDict [(PyString "generated_text",
                                 PyString "a dog")]]).

Definition wordless : Engine :=
  fun _ => inr (PyList [PyDict [(PyString "generated_text", PyString "   ")]]).

(** An engine that raises an [HTTPException] of its own. *)
Definition teapot : Engine := fun _ => inl (HTTPException 418 "teapot").

End Outage.

(** * Properties *)

(** ** The extension filter *)

Section Filter.

Lemma length_app_string (a b : string) :
  String.length (a ++ b) = (String.length a + String.length b)%nat.
Proof. induction a as [|c a IH]; cbn; auto. Qed.

Lemma drop_app (a b : string) : PyStr.drop (String.length a) (a ++ b) = b.
Proof. induction a as [|c a IH]; cbn; auto. Qed.

(** The first [n] characters, the counterpart of [drop]. *)
Lemma drop_split (n : nat) :
  forall s, (n <= String.length s)%nat ->
  exists p, s = p ++ PyStr.drop n s /\ String.length p = n.
Proof.
  induction n as [|n IH]; intros s Hn.
  - exists "". split; [now destruct s | reflexivity].
  - destruct s as [|c s]; cbn in Hn; [lia|].
    destruct (IH s ltac:(lia)) as (p & E & L).
    exists (String c p). cbn. split; [now f_equal | now rewrite L].
Qed.

(** [endswith] holds exactly of the strings that are a prefix followed by
    the suffix. *)
Lemma endswith_iff (s suffix : string) :
  PyStr.endswith s suffix = true <-> exists p, s = p ++ suffix.
Proof.
  unfold PyStr.endswith. rewrite andb_true_iff, Nat.leb_le, String.eqb_eq.
  split.
  - intros [Hl Hd].
    destruct (drop_split (String.length s - String.length suffix) s
                ltac:(lia)) as (p & E & _).
    exists p. now rewrite Hd in E.
  - intros [p ->]. rewrite length_app_string. split; [lia|].
    replace (String.length p + String.length suffix - String.length suffix)%nat
      with (String.length p) by lia.
    apply drop_app.
Qed.

Lemma lower_app (a b : string) :
  PyStr.lower (a ++ b) = PyStr.lower a ++ PyStr.lower b.
Proof. induction a as [|c a IH]; cbn; auto. now rewrite IH. Qed.

(** Folding case works character by character, so a split of the folded
    name is a split of the name. *)
Lemma lower_split (p q : string) :
  forall s, PyStr.lower s = p ++ q ->
  exists a b, s = a ++ b /\ PyStr.lower a = p /\ PyStr.lower b = q.
Proof.
  induction p as [|c p IH]; intros s E.
  - exists "", s. auto.
  - destruct s as [|d s]; cbn in E; [discriminate|].
    injection E as Hc Hs.
    destruct (IH s Hs) as (a & b & -> & Ha & Hb).
    exists (String d a), b. cbn. now rewrite Hc, Ha.
Qed.

Lemma is_supported_iff (name : string) :
  is_supported name = true <-> has_supported_extension name.
Proof.
  unfold is_supported, PyStr.endswith_any, has_supported_extension.
  rewrite existsb_exists. split.
  - intros (ext & Hin & He). apply endswith_iff in He as [p Hp].
    apply lower_split in Hp as (stem & tail & -> & _ & Ht).
    now exists stem, tail, ext.
  - intros (stem & tail & ext & Hin & -> & Ht).
    exists ext. split; auto. apply endswith_iff.
    exists (PyStr.lower stem). now rewrite lower_app, Ht.
Qed.

Lemma image_filenames_iff (all_files_in_dir : list string) (name : string) :
  In name (image_filenames all_files_in_dir)
  <-> In name all_files_in_dir /\ has_supported_extension name.
Proof.
  unfold image_filenames. now rewrite filter_In, is_supported_iff.
Qed.

End Filter.

(** ** Stripping whitespace *)

Section Strip.

Lemma lstrip_head (s : string) : starts_with_space (PyStr.lstrip s) = false.
Proof.
  induction s as [|c r IH]; cbn; auto.
  destruct (PyStr.isspace c) eqn:E; cbn; auto.
Qed.

Lemma lstrip_fixed (s : string) :
  starts_with_space s = false -> PyStr.lstrip s = s.
Proof. destruct s as [|c r]; cbn; auto. now intros ->. Qed.

Lemma rstrip_head (s : string) :
  starts_with_space s = false -> starts_with_space (PyStr.rstrip s) = false.
Proof.
  destruct s as [|c r]; cbn; auto. intros E.
  destruct (PyStr.rstrip r); rewrite ?E; cbn; exact E.
Qed.

Lemma rstrip_last (s : string) : ends_with_space (PyStr.rstrip s) = false.
Proof.
  induction s as [|c r IH]; cbn; auto.
  destruct (PyStr.rstrip r) as [|d r'] eqn:R.
  - destruct (PyStr.isspace c) eqn:E; cbn; auto.
  - exact IH.
Qed.

Lemma rstrip_idempotent (s : string) :
  PyStr.rstrip (PyStr.rstrip s) = PyStr.rstrip s.
Proof.
  induction s as [|c r IH]; cbn; auto.
  destruct (PyStr.rstrip r) as [|d r'] eqn:R.
  - destruct (PyStr.isspace c) eqn:E; cbn; auto. now rewrite E.
  - change (PyStr.rstrip (String c (String d r')))
      with (match PyStr.rstrip (String d r') with
            | EmptyString =>
                if PyStr.isspace c then EmptyString else String c EmptyString
            | x => String c x
            end).
    now rewrite IH.
Qed.

Lemma strip_trimmed (s : string) :
  starts_with_space (PyStr.strip s) = false
  /\ ends_with_space (PyStr.strip s) = false
  /\ PyStr.strip (PyStr.strip s) = PyStr.strip s.
Proof.
  unfold PyStr.strip. split; [|split].
  - apply rstrip_head, lstrip_head.
  - apply rstrip_last.
  - rewrite (lstrip_fixed (PyStr.rstrip (PyStr.lstrip s))).
    + apply rstrip_idempotent.
    + apply rstrip_head, lstrip_head.
Qed.

Lemma lstrip_blank (s : string) : blank s = true -> PyStr.lstrip s = "".
Proof.
  induction s as [|c r IH]; cbn; auto.
  intros B. apply andb_prop in B as [Bc Br]. rewrite Bc. auto.
Qed.

Lemma strip_blank (s : string) : blank s = true -> PyStr.strip s = "".
Proof. intros B. unfold PyStr.strip. now rewrite (lstrip_blank s B). Qed.

Lemma lstrip_split (s : string) :
  exists l, s = l ++ PyStr.lstrip s /\ blank l = true.
Proof.
  induction s as [|c r (l & E & B)]; cbn.
  - now exists "".
  - destruct (PyStr.isspace c) eqn:Sp.
    + exists (String c l). cbn. rewrite Sp, B. split; [now f_equal | reflexivity].
    + now exists "".
Qed.

Lemma rstrip_split (s : string) :
  exists r, s = PyStr.rstrip s ++ r /\ blank r = true.
Proof.
  induction s as [|c r0 (r1 & E & B)]; cbn.
  - now exists "".
  - destruct (PyStr.rstrip r0) as [|d r'] eqn:R.
    + cbn in E. subst r1. destruct (PyStr.isspace c) eqn:Sp.
      * exists (String c r0). cbn. now rewrite Sp, B.
      * now exists r0.
    + exists r1. cbn. split; [now f_equal | exact B].
Qed.

(** What [strip] removes is whitespace, on both sides. *)
Lemma strip_split (s : string) :
  exists l r,
    s = l ++ PyStr.strip s ++ r /\ blank l = true /\ blank r = true.
Proof.
  destruct (lstrip_split s) as (l & El & Bl).
  destruct (rstrip_split (PyStr.lstrip s)) as (r & Er & Br).
  exists l, r. unfold PyStr.strip. now rewrite <- Er, <- El.
Qed.

End Strip.

(** ** One iteration of the loop *)

Section Iteration.

Variables (w : World) (engine : Engine) (folder_path : string).

Local Abbreviation abs_of f := (abspath w (os_path_join folder_path f)).

Ltac run_step :=
  unfold process_file, caption_step, Image_open_convert, call_captioner,
    call, lift, try_except, bind, ret, file_calls; cbn.

(** A well-formed output passes both shape tests of the handler and its
    text can be stripped. *)
Lemma generated_text_of_some (out : PyVal) (text : string) :
  generated_text_of out = Some text ->
  exists d rest,
    out = PyList (PyDict d :: rest)
    /\ Py.lookup "generated_text" d = Some (PyString text).
Proof.
  destruct out as [| | | |[|[| | | | | |d] rest]| |]; cbn; try discriminate.
  destruct (Py.lookup "generated_text" d) as [[| | |s| | |]|] eqn:E;
    try discriminate.
  intros [= <-]. now exists d, rest.
Qed.

Lemma process_file_captioned (filename text : string) (acc : Acc) :
  caption_of w engine folder_path filename = Some text ->
  process_file w engine folder_path filename acc
  = (inr (append_result acc {| image_path := abs_of filename;
                               description := PyStr.strip text |}),
     file_calls w engine folder_path filename).
Proof.
  unfold caption_of. run_step.
  destruct (image_open w _) as [e|[img|]]; try discriminate.
  destruct (engine img) as [e|out]; try discriminate.
  intros H. apply generated_text_of_some in H as (d & rest & -> & L).
  cbn. rewrite L. reflexivity.
Qed.

Lemma process_file_failed (filename : string) (acc : Acc) :
  caption_of w engine folder_path filename = None ->
  exists msg,
    process_file w engine folder_path filename acc
    = (inr (append_error acc (Msg.entry filename msg)),
       file_calls w engine folder_path filename).
Proof.
  unfold caption_of. run_step.
  destruct (image_open w _) as [e|[img|]].
  - intros _. destruct (is_FileNotFoundError e); cbn; eauto.
  - destruct (engine img) as [e|out]; cbn; [eauto|].
    destruct out as [| | | |[|x rest]| |]; cbn;
      rewrite ?andb_false_r; cbn; eauto.
    destruct x as [| | | | | |d]; cbn; eauto.
    destruct (Py.lookup "generated_text" d) as [v|] eqn:L; cbn; eauto.
    destruct v; cbn; eauto. discriminate.
  - cbn. eauto.
Qed.

End Iteration.

(** ** The loop as a whole *)

Section Loop.

Variables (w : World) (engine : Engine) (folder_path : string).

Local Abbreviation run_files := (process_files w engine folder_path).
Local Abbreviation ok := (succeeded w engine folder_path).
Local Abbreviation bad := (failed w engine folder_path).

(** The loop never raises; it extends the two accumulators by one result per
    captioned candidate and one error entry per other candidate, in listing
    order, and calls the decoder once per candidate. *)
Lemma process_files_spec (candidates : list string) :
  forall acc : Acc,
  exists rs es,
    run_files candidates acc
    = (inr ((fst acc ++ rs)%list, (snd acc ++ es)%list),
       flat_map (file_calls w engine folder_path) candidates)
    /\ Forall2 (result_of w engine folder_path) (ok candidates) rs
    /\ Forall2 error_of (bad candidates) es.
Proof.
  induction candidates as [|f rest IH]; intros acc.
  - exists [], []. cbn. rewrite !app_nil_r. destruct acc. repeat split; constructor.
  - cbn [process_files succeeded failed filter flat_map].
    destruct (caption_of w engine folder_path f) as [text|] eqn:C.
    + assert (K : captioned w engine folder_path f = true)
        by (unfold captioned; now rewrite C).
      rewrite K; cbn [negb].
      rewrite (process_file_captioned _ _ _ _ _ _ C). unfold bind.
      destruct (IH (append_result acc
                      {| image_path := abspath w (os_path_join folder_path f);
                         description := PyStr.strip text |}))
        as (rs & es & -> & Hr & He).
      eexists (_ :: rs), es. cbn. rewrite <- app_assoc. cbn.
      repeat split; auto. constructor; auto. now exists text.
    + assert (K : captioned w engine folder_path f = false)
        by (unfold captioned; now rewrite C).
      rewrite K; cbn [negb].
      destruct (process_file_failed w engine folder_path f acc C) as [msg ->].
      unfold bind.
      destruct (IH (append_error acc (Msg.entry f msg)))
        as (rs & es & -> & Hr & He).
      exists rs, (Msg.entry f msg :: es). cbn. rewrite <- app_assoc. cbn.
      repeat split; auto. constructor; auto. now exists msg.
Qed.

Lemma opened_app (t1 t2 : list Event) :
  opened (t1 ++ t2) = (opened t1 ++ opened t2)%list.
Proof.
  induction t1 as [|[] t1 IH]; cbn; auto. now rewrite IH.
Qed.

Lemma opened_file_calls (candidates : list string) :
  opened (flat_map (file_calls w engine folder_path) candidates)
  = map (os_path_join folder_path) candidates.
Proof.
  induction candidates as [|f rest IH]; cbn; auto.
  rewrite <- IH. f_equal.
  destruct (image_open w _) as [?|[?|]]; reflexivity.
Qed.

(** Every candidate is on exactly one side. *)
Lemma succeeded_failed_length (candidates : list string) :
  (List.length (ok candidates) + List.length (bad candidates)
   = List.length candidates)%nat.
Proof.
  unfold succeeded, failed.
  induction candidates as [|f rest IH]; cbn; auto.
  destruct (captioned w engine folder_path f); cbn; lia.
Qed.

Lemma succeeded_app (l1 l2 : list string) :
  ok (l1 ++ l2) = (ok l1 ++ ok l2)%list.
Proof. apply filter_app. Qed.

Lemma failed_app (l1 l2 : list string) :
  bad (l1 ++ l2) = (bad l1 ++ bad l2)%list.
Proof. apply filter_app. Qed.

Lemma succeeded_all (l : list string) :
  Forall (fun f => captioned w engine folder_path f = true) l ->
  ok l = l /\ bad l = [].
Proof.
  unfold succeeded, failed.
  induction 1 as [|f l Hf _ [IH1 IH2]]; cbn; auto.
  rewrite Hf. cbn. now rewrite IH1, IH2.
Qed.

End Loop.

(** ** The endpoint, path by path *)

Section Endpoint.

Variables (w : World) (request : ImageCaptionRequest).

Local Abbreviation folder := (folder_location request).
Local Abbreviation run := (create_captions_for_images_in_folder w request).

Lemma run_unavailable :
  captioner w = None ->
  run = (inl (HTTPException 503 Msg.unavailable), []).
Proof.
  intros H. unfold create_captions_for_images_in_folder. now rewrite H.
Qed.

Lemma run_not_directory (engine : Engine) :
  captioner w = Some engine ->
  isdir w folder = false ->
  run = (inl (HTTPException 400 (Msg.invalid_folder folder)), [CallIsDir folder]).
Proof.
  intros H D. unfold create_captions_for_images_in_folder.
  rewrite H. unfold os_path_isdir, call, bind. rewrite D. reflexivity.
Qed.

Lemma run_listing_raises (engine : Engine) (e : Exn) :
  captioner w = Some engine ->
  isdir w folder = true ->
  listdir w folder = inl e ->
  run = (inl (if is_OSError e
              then HTTPException 500 (Msg.unreadable folder) else e),
         [CallIsDir folder; CallListDir folder]).
Proof.
  intros H D L. unfold create_captions_for_images_in_folder.
  rewrite H. unfold os_path_isdir, os_listdir, call, try_except, bind.
  rewrite D, L. cbn. destruct (is_OSError e); reflexivity.
Qed.

(** With a ready engine, a directory and a listing, a report comes back. *)
Lemma run_report (engine : Engine) (all_files_in_dir : list string) :
  captioner w = Some engine ->
  isdir w folder = true ->
  listdir w folder = inr all_files_in_dir ->
  let candidates := image_filenames all_files_in_dir in
  exists rs es,
    Forall2 (result_of w engine folder) (succeeded w engine folder candidates) rs
    /\ Forall2 error_of (failed w engine folder candidates) es
    /\ run
       = (inr {| total_images_found := List.length candidates;
                 successfully_captioned := List.length rs;
                 results := rs;
                 message :=
                   match candidates with
                   | [] => Msg.no_images folder
                   | _ => summary_message (List.length candidates) rs es
                   end;
                 errors := es |},
          CallIsDir folder :: CallListDir folder
            :: flat_map (file_calls w engine folder) candidates).
Proof.
  intros H D L candidates. unfold create_captions_for_images_in_folder.
  rewrite H. unfold os_path_isdir, os_listdir, call, try_except, bind.
  rewrite D, L. cbn [negb]. fold candidates.
  destruct candidates as [|f rest] eqn:E.
  - exists [], []. cbn. repeat split; constructor.
  - cbn [List.length Nat.eqb].
    destruct (process_files_spec w engine folder (f :: rest) ([], []))
      as (rs & es & -> & Hr & He).
    exists rs, es. cbn. rewrite app_nil_r. repeat split; auto.
Qed.

(** A report comes back only past the three gates. *)
Lemma run_returns_inv (report : CaptionSummaryResponse) :
  response w request = inr report ->
  exists engine all_files_in_dir,
    captioner w = Some engine
    /\ isdir w folder = true
    /\ listdir w folder = inr all_files_in_dir.
Proof.
  unfold response. intros R.
  destruct (captioner w) as [engine|] eqn:H.
  - destruct (isdir w folder) eqn:D.
    + destruct (listdir w folder) as [e|all] eqn:L.
      * rewrite (run_listing_raises engine e H D L) in R. discriminate.
      * now exists engine, all.
    + rewrite (run_not_directory engine H D) in R. discriminate.
  - rewrite (run_unavailable H) in R. discriminate.
Qed.

End Endpoint.

(** ** The scenarios, run *)

Example strip_ex : PyStr.strip "  a cat
 " = "a cat".
Proof. reflexivity. Qed.

Example of_nat_ex : PyStr.of_nat 120 = "120".
Proof. reflexivity. Qed.

Example filter_ex :
  image_filenames ["a.jpg"; "b.txt"; "C.PNG"; "png"; "d.jpeg.bak"; ".webp"]
  = ["a.jpg"; "C.PNG"; ".webp"].
Proof. reflexivity. Qed.

Example join_ex :
  os_path_join "/srv/photos" "a.jpg" = "/srv/photos/a.jpg"
  /\ os_path_join "/srv/photos/" "a.jpg" = "/srv/photos/a.jpg"
  /\ os_path_join "" "a.jpg" = "a.jpg".
Proof. repeat split. Qed.

Example photos_ready :
  create_captions_for_images_in_folder Scenario.ready Scenario.photos
  = (inr Scenario.photos_report,
     [CallIsDir "/srv/photos"; CallListDir "/srv/photos";
      CallImageOpen "/srv/photos/a.jpg"; CallCaptioner Scenario.img_a;
      CallImageOpen "/srv/photos/c.png"]).
Proof. vm_compute. reflexivity. Qed.

Example photos_message :
  message Scenario.photos_report
  = "Generated captions for 1 out of 2 found image(s). See errors for details on failures.".
Proof. reflexivity. Qed.

Example photos_flaky :
  response Scenario.flaky Scenario.photos = inr Scenario.photos_report_flaky.
Proof. vm_compute. reflexivity. Qed.

Example empty_ready :
  response Scenario.ready Scenario.empty = inr Scenario.empty_report.
Proof. vm_compute. reflexivity. Qed.

Example missing_ready :
  create_captions_for_images_in_folder Scenario.ready Scenario.missing
  = (inl (HTTPException 400
            "The folder '/srv/nowhere' does not exist or is not a directory."),
     [CallIsDir "/srv/nowhere"]).
Proof. vm_compute. reflexivity. Qed.

(** * The claims of the specification *)

(** ** Batch-fatal gates *)

(** C7. While the caption engine is not ready (the global [captioner] is
    [None]) every request fails with the 503 "service unavailable" error,
    whatever the directory holds; the handler makes no call at all to the
    file system, the decoder or the engine, and no report is produced. *)
Theorem unavailable_engine_fails_first (w : World) (request : ImageCaptionRequest) :
  captioner w = None ->
  response w request = inl (HTTPException 503 Msg.unavailable)
  /\ calls w request = []
  /\ forall report, response w request <> inr report.
Proof.
  intros H. unfold response, calls. rewrite (run_unavailable w request H).
  cbn. repeat split. discriminate.
Qed.

Lemma unavailable_engine_fails_first_witness :
  response Scenario.down Scenario.photos = inl (HTTPException 503 Msg.unavailable)
  /\ calls Scenario.down Scenario.photos = []
  /\ forall report, response Scenario.down Scenario.photos <> inr report.
Proof.
  apply (unavailable_engine_fails_first Scenario.down Scenario.photos).
  reflexivity.
Defined.

(** C8, as stated, fails: a request for a missing directory made while the
    engine is not ready is answered with the 503 error, not the 400
    "invalid input" error. *)
Lemma invalid_folder_not_always_400 :
  isdir Scenario.down (folder_location Scenario.missing) = false
  /\ response Scenario.down Scenario.missing
     = inl (HTTPException 503 Msg.unavailable)
  /\ response Scenario.down Scenario.missing
     <> inl (HTTPException 400
               (Msg.invalid_folder (folder_location Scenario.missing))).
Proof. repeat split. discriminate. Qed.

(** C8, amended. A request whose [folder_location] is not an existing
    directory never produces a report; with a ready engine it fails with the
    400 "invalid input" error after the directory check alone (no listing, no
    per-file work), and with an engine that is not ready it fails with the 503
    error. *)
Theorem invalid_folder_fails (w : World) (request : ImageCaptionRequest) :
  isdir w (folder_location request) = false ->
  (forall report, response w request <> inr report)
  /\ (forall engine, captioner w = Some engine ->
        response w request
        = inl (HTTPException 400 (Msg.invalid_folder (folder_location request)))
        /\ calls w request = [CallIsDir (folder_location request)])
  /\ (captioner w = None ->
        response w request = inl (HTTPException 503 Msg.unavailable)).
Proof.
  intros D. unfold response, calls. repeat split.
  - intros report R. apply run_returns_inv in R as (e & a & _ & D' & _).
    congruence.
  - now rewrite (run_not_directory w request engine H D).
  - now rewrite (run_not_directory w request engine H D).
  - intros H. now rewrite (run_unavailable w request H).
Qed.

Lemma invalid_folder_fails_witness :
  (forall report, response Scenario.ready Scenario.missing <> inr report)
  /\ (forall engine, captioner Scenario.ready = Some engine ->
        response Scenario.ready Scenario.missing
        = inl (HTTPException 400 (Msg.invalid_folder "/srv/nowhere"))
        /\ calls Scenario.ready Scenario.missing = [CallIsDir "/srv/nowhere"])
  /\ (captioner Scenario.ready = None ->
        response Scenario.ready Scenario.missing
        = inl (HTTPException 503 Msg.unavailable)).
Proof.
  apply (invalid_folder_fails Scenario.ready Scenario.missing). reflexivity.
Defined.

(** ** The empty directory *)

(** C6, as stated, fails: an existing directory with no candidate does not
    make the request succeed when the engine is not ready. *)
Lemma empty_directory_not_always_success :
  isdir Scenario.down (folder_location Scenario.empty) = true
  /\ listdir Scenario.down (folder_location Scenario.empty) = inr []
  /\ image_filenames [] = []
  /\ response Scenario.down Scenario.empty
     = inl (HTTPException 503 Msg.unavailable)
  /\ forall report, response Scenario.down Scenario.empty <> inr report.
Proof. repeat split. discriminate. Qed.

(** C6, amended. With a ready engine, a request for an existing directory
    whose listing holds no candidate after filtering succeeds: it returns the
    report with [total_images_found = 0], [successfully_captioned = 0], no
    results, no errors and the "no images found" message, and no file is
    opened. *)
Theorem empty_directory_report
    (w : World) (request : ImageCaptionRequest) (engine : Engine)
    (all_files_in_dir : list string) :
  captioner w = Some engine ->
  isdir w (folder_location request) = true ->
  listdir w (folder_location request) = inr all_files_in_dir ->
  image_filenames all_files_in_dir = [] ->
  response w request
  = inr {| total_images_found := 0;
           successfully_captioned := 0;
           results := [];
           message := Msg.no_images (folder_location request);
           errors := [] |}
  /\ opened (calls w request) = [].
Proof.
  intros H D L E. unfold response, calls.
  destruct (run_report w request engine all_files_in_dir H D L)
    as (rs & es & Hr & He & ->).
  rewrite E in *. cbn in Hr, He. inversion Hr; inversion He; subst.
  split; reflexivity.
Qed.

Lemma empty_directory_report_witness :
  response Scenario.ready Scenario.empty = inr Scenario.empty_report
  /\ opened (calls Scenario.ready Scenario.empty) = [].
Proof.
  apply (empty_directory_report Scenario.ready Scenario.empty Scenario.steady []);
    reflexivity.
Defined.

(** ** Counting *)

(** What a returned report looks like, for the counting claims. *)
Lemma returned_report_shape
    (w : World) (request : ImageCaptionRequest) (report : CaptionSummaryResponse) :
  response w request = inr report ->
  exists engine all_files_in_dir,
    captioner w = Some engine
    /\ listdir w (folder_location request) = inr all_files_in_dir
    /\ let candidates := image_filenames all_files_in_dir in
       let folder := folder_location request in
       total_images_found report = List.length candidates
       /\ successfully_captioned report = List.length (results report)
       /\ Forall2 (result_of w engine folder)
            (succeeded w engine folder candidates) (results report)
       /\ Forall2 error_of (failed w engine folder candidates) (errors report)
       /\ message report
          = match candidates with
            | [] => Msg.no_images folder
            | _ => summary_message (List.length candidates)
                     (results report) (errors report)
            end
       /\ calls w request
          = CallIsDir folder :: CallListDir folder
              :: flat_map (file_calls w engine folder) candidates.
Proof.
  intros R.
  destruct (run_returns_inv w request report R) as (engine & all & H & D & L).
  exists engine, all. split; [exact H|]. split; [exact L|].
  unfold response, calls in *.
  destruct (run_report w request engine all H D L) as (rs & es & Hr & He & E).
  rewrite E in *. cbn in R. injection R as <-. cbn. auto 10.
Qed.

Lemma returned_report_counts
    (w : World) (request : ImageCaptionRequest) (report : CaptionSummaryResponse) :
  response w request = inr report ->
  successfully_captioned report = List.length (results report)
  /\ (List.length (results report) + List.length (errors report)
      = total_images_found report)%nat.
Proof.
  intros R.
  destruct (returned_report_shape w request report R)
    as (engine & all & _ & _ & Ht & Hs & Hr & He & _).
  split; [exact Hs|].
  rewrite Ht, <- (Forall2_length Hr), <- (Forall2_length He).
  apply succeeded_failed_length.
Qed.

(** C2. Every request that returns a report satisfies
    [successfully_captioned == len(results)] and
    [len(results) + len(errors) <= total_images_found]. *)
Theorem report_invariant
    (w : World) (request : ImageCaptionRequest) (report : CaptionSummaryResponse) :
  response w request = inr report ->
  successfully_captioned report = List.length (results report)
  /\ (List.length (results report) + List.length (errors report)
      <= total_images_found report)%nat.
Proof.
  intros R. destruct (returned_report_counts w request report R) as [Hs Hc].
  split; [exact Hs | lia].
Qed.

Lemma report_invariant_witness :
  successfully_captioned Scenario.photos_report
  = List.length (results Scenario.photos_report)
  /\ (List.length (results Scenario.photos_report)
      + List.length (errors Scenario.photos_report)
      <= total_images_found Scenario.photos_report)%nat.
Proof.
  apply (report_invariant Scenario.ready Scenario.photos Scenario.photos_report).
  vm_compute. reflexivity.
Defined.

(** C10. Every iteration of the per-file loop appends exactly one entry, a
    result or an error string, and never raises; so every returned report
    with [total_images_found > 0] has
    [len(results) + len(errors) == total_images_found], and the condition of
    the discrepancy guard (no errors while fewer results than candidates) is
    false: the warning is never appended. *)
Theorem every_candidate_accounted :
  (forall (w : World) (engine : Engine) (folder_path filename : string)
          (acc : Acc),
      exists t,
        (exists r, process_file w engine folder_path filename acc
                   = (inr (append_result acc r), t))
        \/ (exists e, process_file w engine folder_path filename acc
                      = (inr (append_error acc e), t)))
  /\ (forall (w : World) (request : ImageCaptionRequest)
             (report : CaptionSummaryResponse),
        response w request = inr report ->
        (0 < total_images_found report)%nat ->
        (List.length (results report) + List.length (errors report)
         = total_images_found report)%nat
        /\ discrepancy (List.length (results report))
             (total_images_found report) (errors report) = false
        /\ message report
           = base_message (List.length (results report))
               (total_images_found report)).
Proof.
  split.
  - intros w engine folder_path filename acc.
    exists (file_calls w engine folder_path filename).
    destruct (caption_of w engine folder_path filename) as [text|] eqn:C.
    + left. eexists. apply (process_file_captioned _ _ _ _ _ _ C).
    + right. destruct (process_file_failed w engine folder_path filename acc C)
        as [msg E]. eauto.
  - intros w request report R Hpos.
    destruct (returned_report_counts w request report R) as [_ Hc].
    assert (Hd : discrepancy (List.length (results report))
                   (total_images_found report) (errors report) = false).
    { unfold discrepancy.
      destruct (errors report) as [|e es]; cbn [List.length] in *.
      - assert (Hlt : (List.length (results report)
                       <? total_images_found report)%nat = false)
          by (apply Nat.ltb_ge; lia).
        now rewrite Hlt, andb_false_r.
      - reflexivity. }
    repeat split; auto.
    destruct (returned_report_shape w request report R)
      as (engine & all & _ & _ & Ht & _ & _ & _ & Hm & _).
    cbn in Ht, Hm. rewrite Hm.
    destruct (image_filenames all) as [|f rest]; [rewrite Ht in Hpos; inversion Hpos|].
    unfold summary_message. rewrite <- Ht, Hd. reflexivity.
Qed.

Lemma every_candidate_accounted_witness :
  (List.length (results Scenario.photos_report)
   + List.length (errors Scenario.photos_report)
   = total_images_found Scenario.photos_report)%nat
  /\ discrepancy (List.length (results Scenario.photos_report))
       (total_images_found Scenario.photos_report)
       (errors Scenario.photos_report) = false
  /\ message Scenario.photos_report
     = base_message (List.length (results Scenario.photos_report))
         (total_images_found Scenario.photos_report).
Proof.
  apply (proj2 every_candidate_accounted
           Scenario.ready Scenario.photos Scenario.photos_report).
  - vm_compute. reflexivity.
  - cbn. lia.
Defined.

(** ** The summary message *)

(** The three forms are told apart by their first letter. *)
Lemma message_forms_distinct (m n : nat) :
  Msg.all_succeeded n <> Msg.some_succeeded m n
  /\ Msg.all_succeeded n <> Msg.none_succeeded n
  /\ Msg.some_succeeded m n <> Msg.none_succeeded n.
Proof.
  unfold Msg.all_succeeded, Msg.some_succeeded, Msg.none_succeeded.
  repeat split; discriminate.
Qed.

(** C3. For a report with [total_found > 0] the message follows the rules in
    order, [N] and [M] being the decimal numerals of [total_found] and
    [len(results)]: "Successfully generated captions for all N found
    image(s)." when [len(results) == total_found]; "Generated captions for M
    out of N found image(s). See errors for details on failures." when
    [0 < len(results) < total_found]; "Attempted to process N image(s), but no
    captions were successfully generated. See errors for details." when
    [len(results) == 0]; and the sentence " Some images may have failed
    processing without explicit error messages being captured in the error
    list." is appended exactly when [errors] is empty while
    [len(results) < total_found]. The message of every returned report with
    candidates is built by these rules. *)
Theorem summary_message_rules :
  (forall (total : nat) (res : list ImageCaptionResponseItem)
          (errs : list string),
      (0 < total)%nat ->
      let n := List.length res in
      let N := NilEmpty.string_of_uint (Nat.to_uint total) in
      let M := NilEmpty.string_of_uint (Nat.to_uint n) in
      let unrecorded :=
        match errs with [] => (n <? total)%nat | _ :: _ => false end in
      let with_warning (m : string) :=
        if unrecorded
        then m ++ " Some images may have failed processing without explicit error messages being captured in the error list."
        else m in
      (n = total ->
       summary_message total res errs
       = "Successfully generated captions for all " ++ N ++ " found image(s).")
      /\ ((0 < n < total)%nat ->
          summary_message total res errs
          = with_warning
              ("Generated captions for " ++ M ++ " out of " ++ N
               ++ " found image(s). See errors for details on failures."))
      /\ (n = 0%nat ->
          summary_message total res errs
          = with_warning
              ("Attempted to process " ++ N
               ++ " image(s), but no captions were successfully generated. See errors for details."))
      /\ (unrecorded = true <-> errs = [] /\ (n < total)%nat))
  /\ (forall (w : World) (request : ImageCaptionRequest)
             (report : CaptionSummaryResponse),
        response w request = inr report ->
        (0 < total_images_found report)%nat ->
        message report
        = summary_message (total_images_found report) (results report)
            (errors report)).
Proof.
  split.
  - intros total res errs Hpos n N M unrecorded with_warning.
    assert (Hd : discrepancy n total errs = unrecorded).
    { unfold discrepancy, unrecorded. apply Nat.ltb_lt in Hpos. rewrite Hpos.
      destruct errs; cbn [List.length]; [|reflexivity].
      now rewrite Nat.ltb_irrefl, andb_true_r. }
    subst with_warning. unfold summary_message, base_message. fold n.
    rewrite Hd. clear Hd. split; [|split; [|split]].
    + intros E. assert (U : unrecorded = false).
      { subst unrecorded. destruct errs; [|reflexivity].
        apply Nat.ltb_ge. lia. }
      rewrite U, E, Nat.eqb_refl. apply Nat.ltb_lt in Hpos. rewrite Hpos.
      subst N. rewrite <- E. reflexivity.
    + intros [H0 Hlt].
      assert (E1 : (n =? total)%nat = false) by (apply Nat.eqb_neq; lia).
      apply Nat.ltb_lt in H0. rewrite E1, H0. reflexivity.
    + intros E0.
      assert (E1 : (n =? total)%nat = false) by (apply Nat.eqb_neq; lia).
      assert (E2 : (0 <? n)%nat = false) by (apply Nat.ltb_ge; lia).
      assert (E3 : (n =? 0)%nat = true) by (apply Nat.eqb_eq; lia).
      apply Nat.ltb_lt in Hpos. rewrite E1, E2, E3, Hpos. reflexivity.
    + subst unrecorded. destruct errs as [|e errs].
      * rewrite Nat.ltb_lt. tauto.
      * split; [discriminate | intros [E _]; discriminate E].
  - intros w request report R Hpos.
    destruct (returned_report_shape w request report R)
      as (engine & all & _ & _ & Ht & _ & _ & _ & Hm & _).
    cbn in Ht, Hm. rewrite Hm, Ht.
    destruct (image_filenames all); [rewrite Ht in Hpos; inversion Hpos|].
    reflexivity.
Qed.

Lemma summary_message_rules_witness :
  message Scenario.photos_report
  = summary_message (total_images_found Scenario.photos_report)
      (results Scenario.photos_report) (errors Scenario.photos_report)
  /\ message Scenario.photos_report
     = "Generated captions for 1 out of 2 found image(s). See errors for details on failures."
  /\ summary_message 2 [Scenario.item_a; Scenario.item_a] []
     = "Successfully generated captions for all 2 found image(s)."
  /\ summary_message 120 [Scenario.item_a] []
     = "Generated captions for 1 out of 120 found image(s). See errors for details on failures. Some images may have failed processing without explicit error messages being captured in the error list."
  /\ summary_message 12 [] [Scenario.error_c]
     = "Attempted to process 12 image(s), but no captions were successfully generated. See errors for details."
  /\ summary_message 12 [] []
     = "Attempted to process 12 image(s), but no captions were successfully generated. See errors for details. Some images may have failed processing without explicit error messages being captured in the error list.".
Proof.
  assert (P : message Scenario.photos_report
              = summary_message (total_images_found Scenario.photos_report)
                  (results Scenario.photos_report)
                  (errors Scenario.photos_report)).
  { apply (proj2 summary_message_rules
             Scenario.ready Scenario.photos Scenario.photos_report).
    - vm_compute. reflexivity.
    - cbn. lia. }
  split; [exact P|]. split.
  - rewrite P.
    apply (proj1 (proj2 (proj1 summary_message_rules 2 [Scenario.item_a]
                           [Scenario.error_c] ltac:(lia)))).
    cbn. lia.
  - split; [|split; [|split]].
    + apply (proj1 (proj1 summary_message_rules 2
                      [Scenario.item_a; Scenario.item_a] [] ltac:(lia))).
      reflexivity.
    + apply (proj1 (proj2 (proj1 summary_message_rules 120 [Scenario.item_a] []
                             ltac:(lia)))).
      cbn. lia.
    + apply (proj1 (proj2 (proj2 (proj1 summary_message_rules 12 []
                                    [Scenario.error_c] ltac:(lia))))).
      reflexivity.
    + apply (proj1 (proj2 (proj2 (proj1 summary_message_rules 12 [] []
                                    ltac:(lia))))).
      reflexivity.
Defined.

(** ** Validation of the engine output *)

(** C5. For a candidate that decodes and whose caption call returns, the
    output is checked for its shape: a non-empty list whose first element is a
    dict with a [str] under ['generated_text']. When it is well-formed, one
    result is appended and nothing else changes: its [image_path] is the
    absolute path and its description is the text without the whitespace
    around it (the text is whitespace, the description, whitespace; the
    description neither starts nor ends with whitespace). Any other output of
    the value type, in particular an empty or falsy one, one that is not a
    list, and a list whose first element lacks the text field, appends exactly
    one error entry [filename: msg] for the candidate and leaves the results
    as they were; the iteration returns in every case. *)
Theorem caption_output_validated
    (w : World) (engine : Engine) (folder_path filename : string)
    (img : Image) (out : PyVal) (acc : Acc) :
  image_open w (os_path_join folder_path filename) = inr (Some img) ->
  engine img = inr out ->
  let here := [CallImageOpen (os_path_join folder_path filename);
               CallCaptioner img] in
  let well_formed (text : string) :=
    exists d rest,
      out = PyList (PyDict d :: rest)
      /\ Py.lookup "generated_text" d = Some (PyString text) in
  let recorded_as_error :=
    exists msg,
      process_file w engine folder_path filename acc
      = (inr (fst acc, (snd acc ++ [(filename ++ ": " ++ msg)%string])%list),
         here) in
  (forall text,
      well_formed text ->
      exists description before after,
        process_file w engine folder_path filename acc
        = (inr ((fst acc
                 ++ [{| image_path :=
                          abspath w (os_path_join folder_path filename);
                        description := description |}])%list,
                snd acc),
           here)
        /\ text = before ++ description ++ after
        /\ blank before = true /\ blank after = true
        /\ starts_with_space description = false
        /\ ends_with_space description = false)
  /\ ((forall text, ~ well_formed text) -> recorded_as_error)
  /\ (Py.truthy out = false -> recorded_as_error)
  /\ (Py.is_list out = false -> recorded_as_error)
  /\ (forall x rest,
        out = PyList (x :: rest) ->
        Py.contains "generated_text" x = false ->
        recorded_as_error).
Proof.
  intros Hi He here well_formed recorded_as_error.
  assert (Hc : caption_of w engine folder_path filename = generated_text_of out)
    by (unfold caption_of; now rewrite Hi, He).
  assert (Ht : file_calls w engine folder_path filename = here)
    by (unfold file_calls; now rewrite Hi).
  assert (Hbad : generated_text_of out = None -> recorded_as_error).
  { intros G. rewrite <- Hc in G.
    destruct (process_file_failed w engine folder_path filename acc G)
      as [msg E].
    exists msg. now rewrite E, Ht. }
  split; [|split; [|split; [|split]]].
  - intros text (d & rest & -> & L).
    assert (G : caption_of w engine folder_path filename = Some text)
      by (rewrite Hc; cbn; now rewrite L).
    destruct (strip_split text) as (before & after & E & Bb & Ba).
    destruct (strip_trimmed text) as (Hs & He' & _).
    exists (PyStr.strip text), before, after.
    rewrite (process_file_captioned w engine folder_path filename text acc G).
    rewrite Ht. repeat split; assumption.
  - intros N. apply Hbad.
    destruct (generated_text_of out) as [text|] eqn:G; [|reflexivity].
    destruct (N text). now apply generated_text_of_some.
  - intros T. apply Hbad.
    destruct out as [| | | |[|]| |]; try reflexivity. discriminate T.
  - intros T. apply Hbad. destruct out; try reflexivity. discriminate T.
  - intros x rest -> T. apply Hbad.
    destruct x as [| | | | | |d]; try reflexivity. cbn in *.
    destruct (Py.lookup "generated_text" d); [discriminate|reflexivity].
Qed.

Lemma caption_output_validated_witness :
  (exists description before after,
     process_file Scenario.ready Scenario.steady "/srv/photos" "a.jpg"
       ([], ["earlier.png: failed"])
     = (inr ([{| image_path := "/srv/photos/a.jpg";
                 description := description |}],
             ["earlier.png: failed"]),
        [CallImageOpen "/srv/photos/a.jpg"; CallCaptioner Scenario.img_a])
     /\ " a cat on a sofa " = before ++ description ++ after
     /\ blank before = true /\ blank after = true
     /\ starts_with_space description = false
     /\ ends_with_space description = false)
  /\ (exists msg,
        process_file (Scenario.world (Some Outage.silent)) Outage.silent
          "/srv/photos" "a.jpg" ([Scenario.item_a], ["earlier.png: failed"])
        = (inr ([Scenario.item_a],
                ["earlier.png: failed"; "a.jpg: " ++ msg]),
           [CallImageOpen "/srv/photos/a.jpg"; CallCaptioner Scenario.img_a]))
  /\ process_file Scenario.ready Scenario.steady "/srv/photos" "a.jpg"
       ([], ["earlier.png: failed"])
     = (inr ([{| image_path := "/srv/photos/a.jpg";
                 description := "a cat on a sofa" |}],
             ["earlier.png: failed"]),
        [CallImageOpen "/srv/photos/a.jpg"; CallCaptioner Scenario.img_a])
  /\ process_file (Scenario.world (Some Outage.silent)) Outage.silent
       "/srv/photos" "a.jpg" ([Scenario.item_a], ["earlier.png: failed"])
     = (inr ([Scenario.item_a],
             ["earlier.png: failed";
              "a.jpg: Captioner returned empty or None output for 'a.jpg'. Skipping."]),
        [CallImageOpen "/srv/photos/a.jpg"; CallCaptioner Scenario.img_a]).
Proof.
  split; [|split; [|split; reflexivity]].
  - apply (proj1 (caption_output_validated
                    Scenario.ready Scenario.steady "/srv/photos" "a.jpg"
                    Scenario.img_a
                    (PyList [PyDict [(PyString "generated_text",
                                      PyString " a cat on a sofa ")]])
                    ([], ["earlier.png: failed"]) eq_refl eq_refl)
             " a cat on a sofa ").
    exists [(PyString "generated_text", PyString " a cat on a sofa ")], [].
    split; reflexivity.
  - apply (proj1 (proj2 (proj2 (caption_output_validated
                                  (Scenario.world (Some Outage.silent))
                                  Outage.silent "/srv/photos" "a.jpg"
                                  Scenario.img_a (PyList [])
                                  ([Scenario.item_a], ["earlier.png: failed"])
                                  eq_refl eq_refl)))).
    reflexivity.
Defined.

(** ** The extension filter and the report *)

(** C4, as stated, fails: a subdirectory whose name carries a supported
    extension passes the filter; it is counted in [total_images_found] and,
    failing to decode, appears in [errors]. *)
Lemma subdirectory_with_extension_retained :
  listdir Scenario.ready "/srv/albums" = inr ["holiday.png"; "notes"]
  /\ is_subdirectory Scenario.ready "/srv/albums" "holiday.png" = true
  /\ image_filenames ["holiday.png"; "notes"] = ["holiday.png"]
  /\ response Scenario.ready Scenario.albums = inr Scenario.albums_report
  /\ total_images_found Scenario.albums_report = 1%nat
  /\ errors Scenario.albums_report = [Scenario.error_holiday].
Proof. repeat split. Qed.

(** C4, amended. An entry of the listing is retained as a candidate if and
    only if its name matches, case-insensitively, one of [.png], [.jpg],
    [.jpeg], [.bmp], [.gif], [.webp]; this holds of subdirectories as of
    files, the filter reading names only. In every returned report
    [total_images_found] counts the retained entries, only they are opened,
    and the results and errors belong to them one for one: an entry whose
    name does not match appears nowhere. *)
Theorem extension_filter_exact :
  (forall (all_files_in_dir : list string) (name : string),
      In name (image_filenames all_files_in_dir)
      <-> In name all_files_in_dir /\ has_supported_extension name)
  /\ (forall (w : World) (folder_path : string)
             (all_files_in_dir : list string) (name : string),
        In name all_files_in_dir ->
        is_subdirectory w folder_path name = true ->
        (In name (image_filenames all_files_in_dir)
         <-> has_supported_extension name))
  /\ (forall (w : World) (request : ImageCaptionRequest)
             (all_files_in_dir : list string)
             (report : CaptionSummaryResponse),
        listdir w (folder_location request) = inr all_files_in_dir ->
        response w request = inr report ->
        let folder := folder_location request in
        let candidates := image_filenames all_files_in_dir in
        total_images_found report = List.length candidates
        /\ opened (calls w request) = map (os_path_join folder) candidates
        /\ exists engine,
             captioner w = Some engine
             /\ Forall2 (result_of w engine folder)
                  (succeeded w engine folder candidates) (results report)
             /\ Forall2 error_of
                  (failed w engine folder candidates) (errors report)
             /\ forall name,
                  In name (succeeded w engine folder candidates)
                  \/ In name (failed w engine folder candidates) ->
                  In name all_files_in_dir /\ has_supported_extension name).
Proof.
  split; [exact image_filenames_iff|]. split.
  - intros w folder_path all name Hin _. rewrite image_filenames_iff. tauto.
  - intros w request all report L R folder candidates.
    destruct (returned_report_shape w request report R)
      as (engine & all' & H & L' & Ht & _ & Hr & He & _ & Hc).
    rewrite L in L'. injection L' as <-. fold candidates folder in Ht, Hr, He, Hc.
    split; [exact Ht|]. split.
    + rewrite Hc. cbn. apply opened_file_calls.
    + exists engine. repeat split; auto;
        destruct H0 as [Hn|Hn]; apply filter_In in Hn as [Hn _];
        apply image_filenames_iff in Hn; tauto.
Qed.

Lemma extension_filter_exact_witness :
  total_images_found Scenario.photos_report = 2%nat
  /\ opened (calls Scenario.ready Scenario.photos)
     = ["/srv/photos/a.jpg"; "/srv/photos/c.png"]
  /\ image_filenames ["A.PNG"; "b.JpG"; "notes.txt"; "c.jpeg"; "d.bmp";
                      "png"; "e.GIF"; "f.webp"; "g.png.bak"; "h.tiff"]
     = ["A.PNG"; "b.JpG"; "c.jpeg"; "d.bmp"; "e.GIF"; "f.webp"].
Proof.
  destruct (proj2 (proj2 extension_filter_exact)
              Scenario.ready Scenario.photos ["a.jpg"; "b.txt"; "c.png"]
              Scenario.photos_report eq_refl eq_refl) as (Ht & Ho & _).
  split; [exact Ht | split; [exact Ho | reflexivity]].
Defined.

(** ** Failure isolation *)

Lemma failed_around (w : World) (engine : Engine) (folder_path : string)
    (pre post : list string) (k : string) :
  captioned w engine folder_path k = false ->
  failed w engine folder_path (pre ++ k :: post)
  = (failed w engine folder_path pre
     ++ k :: failed w engine folder_path post)%list
  /\ succeeded w engine folder_path (pre ++ k :: post)
     = (succeeded w engine folder_path pre
        ++ succeeded w engine folder_path post)%list.
Proof.
  intros K. rewrite failed_app, succeeded_app. unfold failed, succeeded.
  cbn [filter]. rewrite K. split; reflexivity.
Qed.

(** C1. Let the candidates reaching the loop be [pre ++ k :: post], where
    [k] fails to decode or to be captioned. Then the batch is not aborted (a
    report is returned), every candidate, those after [k] included, is handed
    to the decoder in listing order, and [k] contributes exactly one error
    entry, placed between the entries of the failures before it and of those
    after it; the results are those of the succeeding candidates in their
    relative order. When [k] is the only failure among the [N] candidates,
    the report holds exactly one error entry, that of [k], and [N - 1]
    results, one per other candidate, in listing order. *)
Theorem failure_isolation
    (w : World) (request : ImageCaptionRequest) (engine : Engine)
    (all_files_in_dir pre post : list string) (k : string) :
  captioner w = Some engine ->
  isdir w (folder_location request) = true ->
  listdir w (folder_location request) = inr all_files_in_dir ->
  image_filenames all_files_in_dir = (pre ++ k :: post)%list ->
  captioned w engine (folder_location request) k = false ->
  let folder := folder_location request in
  let N := List.length (pre ++ k :: post) in
  exists report msg es_pre es_post,
    response w request = inr report
    /\ opened (calls w request) = map (os_path_join folder) (pre ++ k :: post)
    /\ total_images_found report = N
    /\ errors report = (es_pre ++ (k ++ ": " ++ msg)%string :: es_post)%list
    /\ Forall2 error_of (failed w engine folder pre) es_pre
    /\ Forall2 error_of (failed w engine folder post) es_post
    /\ Forall2 (result_of w engine folder)
         (succeeded w engine folder pre ++ succeeded w engine folder post)
         (results report)
    /\ (Forall (fun f => captioned w engine folder f = true) (pre ++ post) ->
        errors report = [k ++ ": " ++ msg]
        /\ List.length (results report) = (N - 1)%nat
        /\ successfully_captioned report = (N - 1)%nat
        /\ Forall2 (result_of w engine folder) (pre ++ post) (results report)).
Proof.
  intros H D L E K folder N.
  destruct (run_report w request engine all_files_in_dir H D L)
    as (rs & es & Hr & He & R).
  rewrite E in *. fold folder in Hr, He, R.
  destruct (failed_around w engine folder pre post k K) as [Fb Fo].
  rewrite Fb in He. rewrite Fo in Hr.
  apply Forall2_app_inv_l in He as (es_pre & tl & Hpre & Htl & ->).
  inversion Htl as [|k' e bad' es_post [msg ->] Hpost]; subst.
  eexists _, msg, es_pre, es_post. unfold response, calls. rewrite R. cbn.
  split; [reflexivity|]. split; [apply opened_file_calls|].
  split; [reflexivity|]. split; [reflexivity|].
  split; [exact Hpre|]. split; [exact Hpost|]. split; [exact Hr|].
  intros All. apply Forall_app in All as [Apre Apost].
  destruct (succeeded_all w engine folder pre Apre) as [Op Bp].
  destruct (succeeded_all w engine folder post Apost) as [Oq Bq].
  rewrite Bp in Hpre. rewrite Bq in Hpost. rewrite Op, Oq in Hr.
  inversion Hpre; inversion Hpost; subst.
  assert (Hn : List.length rs = (N - 1)%nat).
  { rewrite <- (Forall2_length Hr). subst N. rewrite !length_app. cbn. lia. }
  repeat split; auto.
Qed.

Lemma failure_isolation_witness :
  exists report msg es_pre es_post,
    response Scenario.ready Scenario.photos = inr report
    /\ opened (calls Scenario.ready Scenario.photos)
       = ["/srv/photos/a.jpg"; "/srv/photos/c.png"]
    /\ total_images_found report = 2%nat
    /\ errors report = (es_pre ++ ("c.png: " ++ msg)%string :: es_post)%list
    /\ Forall2 error_of [] es_pre
    /\ Forall2 error_of [] es_post
    /\ Forall2 (result_of Scenario.ready Scenario.steady "/srv/photos")
         ["a.jpg"] (results report)
    /\ (Forall (fun f => captioned Scenario.ready Scenario.steady
                           "/srv/photos" f = true) ["a.jpg"] ->
        errors report = ["c.png: " ++ msg]
        /\ List.length (results report) = 1%nat
        /\ successfully_captioned report = 1%nat
        /\ Forall2 (result_of Scenario.ready Scenario.steady "/srv/photos")
             ["a.jpg"] (results report)).
Proof.
  apply (failure_isolation Scenario.ready Scenario.photos Scenario.steady
           ["a.jpg"; "b.txt"; "c.png"] ["a.jpg"] [] "c.png");
    reflexivity.
Defined.

(** ** Repeated invocation *)

Section TwoRuns.

Variables (w1 w2 : World) (e1 e2 : Engine) (folder_path : string).
Hypothesis same : unchanged w1 w2 folder_path.

Lemma process_file_ext (filename : string) (acc : Acc) :
  (forall img, e1 img = e2 img) ->
  process_file w1 e1 folder_path filename acc
  = process_file w2 e2 folder_path filename acc.
Proof.
  destruct same as (_ & _ & Ho & Ha & Hf). intros He.
  unfold process_file, caption_step, Image_open_convert, call_captioner, call.
  rewrite (Ho filename), (Ha filename).
  unfold try_except, bind, ret, lift.
  destruct (image_open w2 _) as [e|[img|]]; cbn; try reflexivity;
    [now destruct (is_FileNotFoundError e)|].
  rewrite (He img).
  destruct (e2 img) as [e|out]; cbn; try reflexivity.
  now rewrite Hf.
Qed.

Lemma process_files_ext (filenames : list string) :
  (forall img, e1 img = e2 img) ->
  forall acc,
    process_files w1 e1 folder_path filenames acc
    = process_files w2 e2 folder_path filenames acc.
Proof.
  intros He. induction filenames as [|f rest IH]; intros acc; cbn; auto.
  rewrite (process_file_ext f acc He). unfold bind.
  destruct (process_file w2 e2 folder_path f acc) as [[e|acc'] t]; auto.
  now rewrite IH.
Qed.

Lemma captioned_ext (filename : string) :
  (forall img, engine_accepts e1 img = engine_accepts e2 img) ->
  captioned w1 e1 folder_path filename = captioned w2 e2 folder_path filename.
Proof.
  destruct same as (_ & _ & Ho & _). intros He.
  unfold captioned, caption_of. rewrite (Ho filename).
  destruct (image_open w2 _) as [e|[img|]]; try reflexivity.
  specialize (He img). unfold engine_accepts in He.
  destruct (e1 img) as [x|o1], (e2 img) as [y|o2]; auto;
    try destruct (generated_text_of o1); try destruct (generated_text_of o2);
    congruence.
Qed.

Lemma partition_ext (candidates : list string) :
  (forall img, engine_accepts e1 img = engine_accepts e2 img) ->
  succeeded w1 e1 folder_path candidates = succeeded w2 e2 folder_path candidates
  /\ failed w1 e1 folder_path candidates = failed w2 e2 folder_path candidates.
Proof.
  intros He. unfold succeeded, failed.
  split; apply filter_ext; intros f; now rewrite (captioned_ext f He).
Qed.

End TwoRuns.

Lemma handler_ext (w1 w2 : World) (e1 e2 : Engine) (request : ImageCaptionRequest) :
  unchanged w1 w2 (folder_location request) ->
  captioner w1 = Some e1 ->
  captioner w2 = Some e2 ->
  (forall img, e1 img = e2 img) ->
  create_captions_for_images_in_folder w1 request
  = create_captions_for_images_in_folder w2 request.
Proof.
  intros U H1 H2 He. unfold create_captions_for_images_in_folder.
  rewrite H1, H2. pose proof U as (Hd & Hl & _).
  unfold os_path_isdir, os_listdir, call, try_except, bind. rewrite Hd, Hl.
  destruct (isdir w2 _); cbn [negb]; [|reflexivity].
  destruct (listdir w2 _) as [e|all];
    cbn -[process_files image_filenames Nat.eqb];
    [now destruct (is_OSError e)|].
  destruct (List.length (image_filenames all) =? 0)%nat; [reflexivity|].
  now rewrite (process_files_ext w1 w2 e1 e2 _ U _ He).
Qed.

Lemma partition_covers (w : World) (engine : Engine) (folder_path : string)
    (candidates : list string) (f : string) :
  In f (succeeded w engine folder_path candidates)
  \/ In f (failed w engine folder_path candidates)
  <-> In f candidates.
Proof.
  unfold succeeded, failed. rewrite !filter_In.
  destruct (captioned w engine folder_path f); cbn; intuition congruence.
Qed.

(** C9, as stated, fails: against the same directory, an engine that raises
    in one invocation and not in the other moves a file from [results] to
    [errors]. *)
Lemma engine_failure_changes_partition :
  unchanged Scenario.ready Scenario.flaky (folder_location Scenario.photos)
  /\ captioner Scenario.ready = Some Scenario.steady
  /\ captioner Scenario.flaky = Some Scenario.exhausted
  /\ response Scenario.ready Scenario.photos = inr Scenario.photos_report
  /\ response Scenario.flaky Scenario.photos = inr Scenario.photos_report_flaky
  /\ map image_path (results Scenario.photos_report) = ["/srv/photos/a.jpg"]
  /\ results Scenario.photos_report_flaky = []
  /\ errors Scenario.photos_report = [Scenario.error_c]
  /\ errors Scenario.photos_report_flaky = [Scenario.error_a; Scenario.error_c].
Proof. unfold unchanged. repeat split. Qed.

(** C9, amended. Two invocations against the same unchanged directory, each
    with a ready engine, return reports with the same [total_images_found]
    over the same candidates, every candidate being in [results] or in
    [errors] in each run. The files in [results] and those in [errors] are
    the same in both runs provided the engine returns a well-formed output on
    the same images in both; and when the engine is a deterministic function
    the two reports are equal, descriptions included byte for byte. *)
Theorem repeated_invocation
    (w1 w2 : World) (e1 e2 : Engine) (request : ImageCaptionRequest)
    (r1 r2 : CaptionSummaryResponse) :
  unchanged w1 w2 (folder_location request) ->
  captioner w1 = Some e1 ->
  captioner w2 = Some e2 ->
  response w1 request = inr r1 ->
  response w2 request = inr r2 ->
  let folder := folder_location request in
  exists candidates,
    total_images_found r1 = List.length candidates
    /\ total_images_found r1 = total_images_found r2
    /\ Forall2 (result_of w1 e1 folder) (succeeded w1 e1 folder candidates)
         (results r1)
    /\ Forall2 error_of (failed w1 e1 folder candidates) (errors r1)
    /\ Forall2 (result_of w2 e2 folder) (succeeded w2 e2 folder candidates)
         (results r2)
    /\ Forall2 error_of (failed w2 e2 folder candidates) (errors r2)
    /\ (forall f,
          In f (succeeded w1 e1 folder candidates)
          \/ In f (failed w1 e1 folder candidates)
          <-> In f (succeeded w2 e2 folder candidates)
              \/ In f (failed w2 e2 folder candidates))
    /\ ((forall img, engine_accepts e1 img = engine_accepts e2 img) ->
        succeeded w1 e1 folder candidates = succeeded w2 e2 folder candidates
        /\ failed w1 e1 folder candidates = failed w2 e2 folder candidates)
    /\ ((forall img, e1 img = e2 img) -> r1 = r2).
Proof.
  intros U H1 H2 R1 R2 folder.
  destruct (returned_report_shape w1 request r1 R1)
    as (e1' & all1 & H1' & L1 & T1 & _ & Rs1 & Es1 & _).
  destruct (returned_report_shape w2 request r2 R2)
    as (e2' & all2 & H2' & L2 & T2 & _ & Rs2 & Es2 & _).
  rewrite H1 in H1'. injection H1' as <-.
  rewrite H2 in H2'. injection H2' as <-.
  assert (all1 = all2) as <-.
  { destruct U as (_ & Hl & _). rewrite L1, L2 in Hl. now injection Hl. }
  exists (image_filenames all1). fold folder in Rs1, Es1, Rs2, Es2.
  split; [exact T1|]. split; [congruence|].
  split; [exact Rs1|]. split; [exact Es1|].
  split; [exact Rs2|]. split; [exact Es2|]. split; [|split].
  - intros f. now rewrite !partition_covers.
  - intros He. now apply partition_ext.
  - intros He. unfold response in R1, R2.
    rewrite (handler_ext w1 w2 e1 e2 request U H1 H2 He) in R1. congruence.
Qed.

Lemma repeated_invocation_witness :
  exists candidates,
    total_images_found Scenario.photos_report = List.length candidates
    /\ total_images_found Scenario.photos_report
       = total_images_found Scenario.photos_report_flaky
    /\ Forall2 (result_of Scenario.ready Scenario.steady "/srv/photos")
         (succeeded Scenario.ready Scenario.steady "/srv/photos" candidates)
         (results Scenario.photos_report)
    /\ Forall2 error_of
         (failed Scenario.ready Scenario.steady "/srv/photos" candidates)
         (errors Scenario.photos_report)
    /\ Forall2 (result_of Scenario.flaky Scenario.exhausted "/srv/photos")
         (succeeded Scenario.flaky Scenario.exhausted "/srv/photos" candidates)
         (results Scenario.photos_report_flaky)
    /\ Forall2 error_of
         (failed Scenario.flaky Scenario.exhausted "/srv/photos" candidates)
         (errors Scenario.photos_report_flaky)
    /\ (forall f,
          In f (succeeded Scenario.ready Scenario.steady "/srv/photos" candidates)
          \/ In f (failed Scenario.ready Scenario.steady "/srv/photos" candidates)
          <-> In f (succeeded Scenario.flaky Scenario.exhausted "/srv/photos"
                      candidates)
              \/ In f (failed Scenario.flaky Scenario.exhausted "/srv/photos"
                         candidates))
    /\ ((forall img, engine_accepts Scenario.steady img
                     = engine_accepts Scenario.exhausted img) ->
        succeeded Scenario.ready Scenario.steady "/srv/photos" candidates
        = succeeded Scenario.flaky Scenario.exhausted "/srv/photos" candidates
        /\ failed Scenario.ready Scenario.steady "/srv/photos" candidates
           = failed Scenario.flaky Scenario.exhausted "/srv/photos" candidates)
    /\ ((forall img, Scenario.steady img = Scenario.exhausted img) ->
        Scenario.photos_report = Scenario.photos_report_flaky).
Proof.
  apply (repeated_invocation Scenario.ready Scenario.flaky
           Scenario.steady Scenario.exhausted Scenario.photos
           Scenario.photos_report Scenario.photos_report_flaky);
    try reflexivity.
  unfold unchanged. repeat split.
Defined.

(** * Further properties of the code *)

(** ** Listing failures and the ways a request can end *)

(** X1. When the directory check passes and [os.listdir] raises, the request
    is aborted before any file is opened: an [OSError] (its subclass
    [FileNotFoundError] included) becomes the 500 error naming the folder, any
    other exception leaves the handler unchanged; the only outside calls are
    the directory check and the listing. *)
Theorem listing_failure_is_fatal
    (w : World) (request : ImageCaptionRequest) (engine : Engine) (e : Exn) :
  captioner w = Some engine ->
  isdir w (folder_location request) = true ->
  listdir w (folder_location request) = inl e ->
  let folder := folder_location request in
  response w request
  = inl (if is_OSError e then HTTPException 500 (Msg.unreadable folder) else e)
  /\ calls w request = [CallIsDir folder; CallListDir folder]
  /\ opened (calls w request) = []
  /\ engine_calls (calls w request) = [].
Proof.
  intros H D L folder. unfold response, calls.
  rewrite (run_listing_raises w request engine e H D L). cbn. auto.
Qed.

Lemma listing_failure_is_fatal_witness :
  response Outage.world Outage.locked
  = inl (HTTPException 500 "Could not read directory contents: /srv/locked")
  /\ calls Outage.world Outage.locked
     = [CallIsDir "/srv/locked"; CallListDir "/srv/locked"]
  /\ opened (calls Outage.world Outage.locked) = []
  /\ engine_calls (calls Outage.world Outage.locked) = [].
Proof.
  apply (listing_failure_is_fatal Outage.world Outage.locked Scenario.steady
           Outage.locked_error); reflexivity.
Defined.

(** X2. Every request ends in one of five ways, decided in this
    order: 503 when the engine is not ready; 400 when the folder is not a
    directory; 500 when the listing raises an [OSError]; the listing's own
    exception when it raises anything else; a report otherwise. *)
Theorem response_classification (w : World) (request : ImageCaptionRequest) :
  let folder := folder_location request in
  (captioner w = None
   /\ response w request = inl (HTTPException 503 Msg.unavailable))
  \/ (captioner w <> None /\ isdir w folder = false
      /\ response w request
         = inl (HTTPException 400 (Msg.invalid_folder folder)))
  \/ (captioner w <> None /\ isdir w folder = true
      /\ exists e, listdir w folder = inl e /\ is_OSError e = true
                   /\ response w request
                      = inl (HTTPException 500 (Msg.unreadable folder)))
  \/ (captioner w <> None /\ isdir w folder = true
      /\ exists e, listdir w folder = inl e /\ is_OSError e = false
                   /\ response w request = inl e)
  \/ (captioner w <> None /\ isdir w folder = true
      /\ exists all_files_in_dir report,
           listdir w folder = inr all_files_in_dir
           /\ response w request = inr report
           /\ total_images_found report
              = List.length (image_filenames all_files_in_dir)).
Proof.
  intros folder. unfold response.
  destruct (captioner w) as [engine|] eqn:H.
  - right. assert (Hn : Some engine <> None) by discriminate.
    destruct (isdir w folder) eqn:D.
    + right. destruct (listdir w folder) as [e|all] eqn:L.
      * rewrite (run_listing_raises w request engine e H D L). cbn.
        destruct (is_OSError e) eqn:O; [left | right; left]; eauto 8.
      * right. right.
        destruct (run_report w request engine all H D L)
          as (rs & es & _ & _ & ->).
        repeat split; auto. eexists all, _. repeat split.
    + left. rewrite (run_not_directory w request engine H D). auto.
  - left. rewrite (run_unavailable w request H). auto.
Qed.

(** ** Startup and the endpoint together *)

(** X3. When startup fails, whether the pipeline cannot be built or its
    device cannot be read, the global [captioner] is [None] whatever it was
    before, and every later request is answered with the 503 error without
    touching the file system. *)
Theorem startup_failure_disables_service
    (built : Exn + Pipeline) (w : World) (request : ImageCaptionRequest) :
  (forall p, built = inr p -> exists e, pipeline_device p = inl e) ->
  captioner (startup_event built w) = None
  /\ response (startup_event built w) request
     = inl (HTTPException 503 Msg.unavailable)
  /\ calls (startup_event built w) request = [].
Proof.
  intros F.
  assert (N : captioner (startup_event built w) = None).
  { cbn. unfold startup_captioner. destruct built as [e|p]; [reflexivity|].
    destruct (F p eq_refl) as [e ->]. reflexivity. }
  unfold response, calls.
  rewrite (run_unavailable (startup_event built w) request N). auto.
Qed.

Lemma startup_failure_disables_service_witness :
  captioner (startup_event Outage.unreachable Scenario.ready) = None
  /\ response (startup_event Outage.unreachable Scenario.ready) Scenario.photos
     = inl (HTTPException 503 Msg.unavailable)
  /\ calls (startup_event Outage.unreachable Scenario.ready) Scenario.photos = [].
Proof.
  apply (startup_failure_disables_service Outage.unreachable Scenario.ready
           Scenario.photos).
  intros p E. discriminate E.
Defined.

(** X4. When startup succeeds (the pipeline is built and its device read),
    the global [captioner] is that pipeline, and a request for a directory
    that can be listed returns a report counting the supported entries, even
    if the service was unavailable before. *)
Theorem startup_success_enables_service
    (p : Pipeline) (device : string) (w : World) (request : ImageCaptionRequest)
    (all_files_in_dir : list string) :
  pipeline_device p = inr device ->
  isdir w (folder_location request) = true ->
  listdir w (folder_location request) = inr all_files_in_dir ->
  captioner (startup_event (inr p) w) = Some (pipeline_engine p)
  /\ exists report,
       response (startup_event (inr p) w) request = inr report
       /\ total_images_found report
          = List.length (image_filenames all_files_in_dir).
Proof.
  intros Dv D L.
  assert (C : captioner (startup_event (inr p) w) = Some (pipeline_engine p))
    by (cbn; now rewrite Dv).
  split; [exact C|].
  destruct (run_report (startup_event (inr p) w) request (pipeline_engine p)
              all_files_in_dir C D L) as (rs & es & _ & _ & R).
  unfold response. rewrite R. eexists. split; reflexivity.
Qed.

Lemma startup_success_enables_service_witness :
  captioner (startup_event (inr Outage.loaded) Scenario.down)
  = Some Scenario.steady
  /\ exists report,
       response (startup_event (inr Outage.loaded) Scenario.down) Scenario.photos
       = inr report
       /\ total_images_found report = 2%nat.
Proof.
  apply (startup_success_enables_service Outage.loaded "cpu" Scenario.down
           Scenario.photos ["a.jpg"; "b.txt"; "c.png"]); reflexivity.
Defined.

(** ** Per-file failures, message by message *)

Ltac run_file :=
  unfold process_file, caption_step, Image_open_convert, call_captioner,
    call, lift, try_except, bind, ret; cbn.



(** X6. When the image decodes and the engine raises, the exception is
    caught: exactly one error entry, "<filename>: An error occurred during
    caption generation for '<filename>': <str(e)>.", is appended, the results
    are left as they were, and the iteration returns. *)
Theorem engine_exception_reported
    (w : World) (engine : Engine) (folder_path filename : string)
    (img : Image) (e : Exn) (acc : Acc) :
  image_open w (os_path_join folder_path filename) = inr (Some img) ->
  engine img = inl e ->
  process_file w engine folder_path filename acc
  = (inr (fst acc,
          (snd acc
           ++ [(filename ++ ": An error occurred during caption generation for '"
                ++ filename ++ "': " ++ exn_str e ++ ".")%string])%list),
     [CallImageOpen (os_path_join folder_path filename); CallCaptioner img]).
Proof.
  intros Hi He. run_file. rewrite Hi. cbn. rewrite He. reflexivity.
Qed.

Lemma engine_exception_reported_witness :
  process_file Scenario.flaky Scenario.exhausted "/srv/photos" "a.jpg" ([], [])
  = (inr ([], ["a.jpg: An error occurred during caption generation for 'a.jpg': CUDA out of memory."]),
     [CallImageOpen "/srv/photos/a.jpg"; CallCaptioner Scenario.img_a])
  /\ process_file (Scenario.world (Some Outage.teapot)) Outage.teapot
       "/srv/photos" "a.jpg" ([], [])
     = (inr ([], ["a.jpg: An error occurred during caption generation for 'a.jpg': 418: teapot."]),
        [CallImageOpen "/srv/photos/a.jpg"; CallCaptioner Scenario.img_a]).
Proof.
  split.
  - apply (engine_exception_reported Scenario.flaky Scenario.exhausted
             "/srv/photos" "a.jpg" Scenario.img_a
             (OtherException "CUDA out of memory") ([], []));
      reflexivity.
  - apply (engine_exception_reported (Scenario.world (Some Outage.teapot))
             Outage.teapot "/srv/photos" "a.jpg" Scenario.img_a
             (HTTPException 418 "teapot") ([], []));
      reflexivity.
Defined.

(** X7. An engine output of the value type that is not well-formed is
    reported by its shape, by exactly one error entry. An output that is falsy
    or not a list gives "Captioner returned empty or None output for
    '<filename>'. Skipping."; a non-empty list whose first element is not a
    dict with the key ['generated_text'] gives "Caption output format
    unexpected for '<filename>'. First element: <str(element)>. Skipping.";
    and a first element holding under that key a value of a class without a
    [strip] method ([None], [bool], [int], [list], [tuple], [dict]) passes the
    shape test, fails at [.strip()], and is reported through the [except]
    branch with the [AttributeError] text. *)
Theorem malformed_output_reported
    (w : World) (engine : Engine) (folder_path filename : string)
    (img : Image) (out : PyVal) (acc : Acc) :
  image_open w (os_path_join folder_path filename) = inr (Some img) ->
  engine img = inr out ->
  generated_text_of out = None ->
  process_file w engine folder_path filename acc
  = (inr (fst acc,
          (snd acc
           ++ [(filename ++ ": "
                ++ match out with
                   | PyList (PyDict d :: _) =>
                       match Py.lookup "generated_text" d with
                       | Some v =>
                           "An error occurred during caption generation for '"
                           ++ filename ++ "': '" ++ Py.type_name v
                           ++ "' object has no attribute 'strip'."
                       | None =>
                           "Caption output format unexpected for '" ++ filename
                           ++ "'. First element: "
                           ++ format_value w (PyDict d) ++ ". Skipping."
                       end
                   | PyList (x :: _) =>
                       "Caption output format unexpected for '" ++ filename
                       ++ "'. First element: " ++ format_value w x
                       ++ ". Skipping."
                   | _ =>
                       "Captioner returned empty or None output for '"
                       ++ filename ++ "'. Skipping."
                   end)%string])%list),
     [CallImageOpen (os_path_join folder_path filename); CallCaptioner img]).
Proof.
  intros Hi He G. run_file. rewrite Hi. cbn. rewrite He. cbn.
  destruct out as [| | | |[|x rest]| |]; cbn;
    rewrite ?andb_false_r; cbn; try reflexivity.
  destruct x as [| | | | | |d]; cbn; try reflexivity.
  cbn in G.
  destruct (Py.lookup "generated_text" d) as [v|] eqn:L; cbn; [|reflexivity].
  destruct v; cbn; try reflexivity. discriminate G.
Qed.

Lemma malformed_output_reported_witness :
  process_file (Scenario.world (Some Outage.numeric)) Outage.numeric
    "/srv/photos" "a.jpg" ([], [])
  = (inr ([], ["a.jpg: An error occurred during caption generation for 'a.jpg': 'int' object has no attribute 'strip'."]),
     [CallImageOpen "/srv/photos/a.jpg"; CallCaptioner Scenario.img_a])
  /\ process_file (Scenario.world (Some Outage.keyless)) Outage.keyless
       "/srv/photos" "a.jpg" ([], [])
     = (inr ([], ["a.jpg: Caption output format unexpected for 'a.jpg'. First element: {'text': 'a cat'}. Skipping."]),
        [CallImageOpen "/srv/photos/a.jpg"; CallCaptioner Scenario.img_a])
  /\ process_file (Scenario.world (Some Outage.silent)) Outage.silent
       "/srv/photos" "a.jpg" ([], [])
     = (inr ([], ["a.jpg: Captioner returned empty or None output for 'a.jpg'. Skipping."]),
        [CallImageOpen "/srv/photos/a.jpg"; CallCaptioner Scenario.img_a]).
Proof.
  split; [|split].
  - apply (malformed_output_reported (Scenario.world (Some Outage.numeric))
             Outage.numeric "/srv/photos" "a.jpg" Scenario.img_a
             (PyList [PyDict [(PyString "generated_text", PyInt 7)]])
             ([], [])); reflexivity.
  - apply (malformed_output_reported (Scenario.world (Some Outage.keyless))
             Outage.keyless "/srv/photos" "a.jpg" Scenario.img_a
             (PyList [PyDict [(PyString "text", PyString "a cat")]])
             ([], [])); reflexivity.
  - apply (malformed_output_reported (Scenario.world (Some Outage.silent))
             Outage.silent "/srv/photos" "a.jpg" Scenario.img_a
             (PyList []) ([], [])); reflexivity.
Defined.

(** X8. Only the first element of the engine's output list is read: two
    outputs with the same first element, whatever follows it, leave the same
    results and errors. *)
Theorem only_first_caption_used
    (w : World) (engine engine' : Engine) (folder_path filename : string)
    (img : Image) (x : PyVal) (rest rest' : list PyVal) (acc : Acc) :
  image_open w (os_path_join folder_path filename) = inr (Some img) ->
  engine img = inr (PyList (x :: rest)) ->
  engine' img = inr (PyList (x :: rest')) ->
  process_file w engine folder_path filename acc
  = process_file w engine' folder_path filename acc.
Proof.
  intros Hi He He'. run_file. rewrite Hi. cbn. rewrite He, He'. reflexivity.
Qed.

Lemma only_first_caption_used_witness :
  process_file Scenario.ready Outage.verbose "/srv/photos" "a.jpg" ([], [])
  = process_file Scenario.ready Scenario.steady "/srv/photos" "a.jpg" ([], []).
Proof.
  apply (only_first_caption_used Scenario.ready Outage.verbose Scenario.steady
           "/srv/photos" "a.jpg" Scenario.img_a
           (PyDict [(PyString "generated_text", PyString " a cat on a sofa ")])
           [PyDict [(PyString "generated_text", PyString "a dog")]] []
           ([], []));
    reflexivity.
Defined.

(** ** Trimmed descriptions *)

(** X9. When the captions the engine returns are [str], each description
    of a returned report is trimmed: it neither starts nor ends with a
    whitespace character, and stripping it again changes nothing. (A caption
    of another class with a [strip] method of its own, such as [bytes], is
    outside this statement.) *)
Theorem descriptions_are_trimmed
    (w : World) (engine : Engine) (request : ImageCaptionRequest)
    (report : CaptionSummaryResponse) (r : ImageCaptionResponseItem) :
  captioner w = Some engine ->
  returns_str_captions engine ->
  response w request = inr report ->
  In r (results report) ->
  starts_with_space (description r) = false
  /\ ends_with_space (description r) = false
  /\ PyStr.strip (description r) = description r.
Proof.
  intros H _ R Hin.
  destruct (returned_report_shape w request report R)
    as (engine' & all & _ & _ & _ & _ & Hr & _).
  cbn in Hr. revert Hin.
  induction Hr as [|f r' fs rs (text & _ & ->) _ IH]; cbn; [tauto|].
  intros [<- | Hin]; [|exact (IH Hin)].
  cbn. apply strip_trimmed.
Qed.

Lemma descriptions_are_trimmed_witness :
  starts_with_space (description Scenario.item_a) = false
  /\ ends_with_space (description Scenario.item_a) = false
  /\ PyStr.strip (description Scenario.item_a) = description Scenario.item_a.
Proof.
  apply (descriptions_are_trimmed Scenario.ready Scenario.steady Scenario.photos
           Scenario.photos_report Scenario.item_a).
  - reflexivity.
  - intros img d rest v E L. injection E as <-. cbn in L.
    injection L as <-. now exists " a cat on a sofa ".
  - vm_compute. reflexivity.
  - left. reflexivity.
Defined.

(** X10. A caption made of whitespace only is not a failure: the text is
    stripped to the empty string and a result with an empty description is
    appended; no error entry is recorded. *)
Theorem blank_caption_is_a_result
    (w : World) (engine : Engine) (folder_path filename : string)
    (img : Image) (d : list (PyVal * PyVal)) (rest : list PyVal)
    (text : string) (acc : Acc) :
  image_open w (os_path_join folder_path filename) = inr (Some img) ->
  engine img = inr (PyList (PyDict d :: rest)) ->
  Py.lookup "generated_text" d = Some (PyString text) ->
  blank text = true ->
  process_file w engine folder_path filename acc
  = (inr ((fst acc
           ++ [{| image_path := abspath w (os_path_join folder_path filename);
                  description := "" |}])%list,
          snd acc),
     [CallImageOpen (os_path_join folder_path filename); CallCaptioner img]).
Proof.
  intros Hi He L B. run_file. rewrite Hi. cbn. rewrite He. cbn. rewrite L. cbn.
  now rewrite (strip_blank text B).
Qed.

Lemma blank_caption_is_a_result_witness :
  process_file Scenario.ready Outage.wordless "/srv/photos" "a.jpg" ([], [])
  = (inr ([{| image_path := "/srv/photos/a.jpg"; description := "" |}], []),
     [CallImageOpen "/srv/photos/a.jpg"; CallCaptioner Scenario.img_a]).
Proof.
  apply (blank_caption_is_a_result Scenario.ready Outage.wordless
           "/srv/photos" "a.jpg" Scenario.img_a
           [(PyString "generated_text", PyString "   ")] [] "   " ([], []));
    reflexivity.
Defined.

(** ** The filter reads the end of the name *)

Section Suffix.

Lemma length_lower (s : string) : String.length (PyStr.lower s) = String.length s.
Proof. induction s as [|c r IH]; cbn; auto. Qed.

Lemma extension_length (ext : string) :
  In ext SUPPORTED_EXTENSIONS ->
  (4 <= String.length ext <= 5)%nat.
Proof.
  cbn. intros [<-|[<-|[<-|[<-|[<-|[<-|[]]]]]]]; cbn; lia.
Qed.

(** A suffix no longer than [b] is a suffix of [a ++ b] exactly when it is a
    suffix of [b]. *)
Lemma app_suffix (a b suffix : string) :
  (String.length suffix <= String.length b)%nat ->
  (exists q, a ++ b = q ++ suffix) -> exists q, b = q ++ suffix.
Proof.
  intros Hl. induction a as [|c a IH]; cbn; auto.
  intros [[|d q] E]; cbn in E.
  - exfalso. rewrite <- E in Hl. cbn in Hl. rewrite length_app_string in Hl. lia.
  - injection E as _ E. apply IH. now exists q.
Qed.

Lemma endswith_app (a b suffix : string) :
  (String.length suffix <= String.length b)%nat ->
  PyStr.endswith (a ++ b) suffix = PyStr.endswith b suffix.
Proof.
  intros Hl. apply eq_true_iff_eq. rewrite !endswith_iff. split.
  - now apply app_suffix.
  - intros [q ->]. exists (a ++ q).
    clear Hl. induction a as [|c a IH]; cbn; auto. now rewrite IH.
Qed.

End Suffix.

(** X11. Whether a name passes the filter depends on its last five
    characters at most: putting anything in front of a name of five or more
    characters does not change the decision. A name shorter than four
    characters never passes. *)
Theorem filter_reads_name_end :
  (forall front name,
      (5 <= String.length name)%nat ->
      is_supported (front ++ name) = is_supported name)
  /\ (forall name, is_supported name = true -> (4 <= String.length name)%nat).
Proof.
  split.
  - intros front name Hl. unfold is_supported, PyStr.endswith_any.
    rewrite lower_app.
    assert (Hin : forall ext, In ext SUPPORTED_EXTENSIONS ->
                   PyStr.endswith (PyStr.lower front ++ PyStr.lower name) ext
                   = PyStr.endswith (PyStr.lower name) ext).
    { intros ext Hin. apply endswith_app. rewrite length_lower.
      pose proof (extension_length ext Hin). lia. }
    revert Hin. generalize SUPPORTED_EXTENSIONS as exts.
    induction exts as [|ext exts IH]; cbn; auto. intros Hin.
    rewrite (Hin ext (or_introl eq_refl)). f_equal.
    apply IH. intros ext' H'. apply Hin. now right.
  - intros name S. apply is_supported_iff in S
      as (stem & tail & ext & Hin & -> & <-).
    pose proof (extension_length _ Hin) as Hl.
    rewrite length_lower in Hl. rewrite length_app_string. lia.
Qed.

Lemma filter_reads_name_end_witness :
  is_supported ("archive.tar" ++ "x.png") = is_supported "x.png"
  /\ (4 <= String.length ".png")%nat.
Proof.
  split.
  - apply (proj1 filter_reads_name_end "archive.tar" "x.png"). cbn. lia.
  - apply (proj2 filter_reads_name_end ".png"). reflexivity.
Defined.

(** ** What the message tells *)

Lemma returned_report_message
    (w : World) (request : ImageCaptionRequest) (report : CaptionSummaryResponse) :
  response w request = inr report ->
  (0 < total_images_found report)%nat ->
  message report
  = base_message (List.length (results report)) (total_images_found report).
Proof.
  intros R Hpos.
  destruct (returned_report_counts w request report R) as [_ Hc].
  destruct (returned_report_shape w request report R)
    as (engine & all & _ & _ & Ht & _ & _ & _ & Hm & _).
  cbn in Ht, Hm. rewrite Hm.
  destruct (image_filenames all) as [|f rest];
    [rewrite Ht in Hpos; inversion Hpos|].
  assert (Hd : discrepancy (List.length (results report))
                 (total_images_found report) (errors report) = false).
  { unfold discrepancy.
    destruct (errors report) as [|e es]; cbn [List.length] in *;
      [|reflexivity].
    assert (Hlt : (List.length (results report)
                   <? total_images_found report)%nat = false)
      by (apply Nat.ltb_ge; lia).
    now rewrite Hlt, andb_false_r. }
  unfold summary_message. rewrite <- Ht, Hd. reflexivity.
Qed.

(** X12. In a returned report with candidates, the message is the "all
    succeeded" one exactly when [errors] is empty, and exactly when
    [successfully_captioned] equals [total_images_found]. *)
Theorem all_succeeded_iff_no_errors
    (w : World) (request : ImageCaptionRequest) (report : CaptionSummaryResponse) :
  response w request = inr report ->
  (0 < total_images_found report)%nat ->
  (errors report = []
   <-> successfully_captioned report = total_images_found report)
  /\ (errors report = []
      <-> message report = Msg.all_succeeded (total_images_found report)).
Proof.
  intros R Hpos.
  destruct (returned_report_counts w request report R) as [Hs Hc].
  pose proof (returned_report_message w request report R Hpos) as Hm.
  assert (E : errors report = []
              <-> List.length (results report) = total_images_found report).
  { destruct (errors report) as [|e es]; cbn [List.length] in Hc.
    - split; auto. intros _. lia.
    - split; [discriminate|]. intros. lia. }
  split; [now rewrite Hs|]. rewrite E, Hm. unfold base_message.
  split.
  - intros ->. rewrite Nat.eqb_refl. apply Nat.ltb_lt in Hpos. now rewrite Hpos.
  - intros M.
    destruct (List.length (results report) =? total_images_found report)%nat
      eqn:Q; [now apply Nat.eqb_eq|].
    apply Nat.ltb_lt in Hpos. rewrite Hpos in M. cbn [andb] in M.
    destruct (0 <? List.length (results report))%nat.
    + unfold Msg.some_succeeded, Msg.all_succeeded in M. discriminate M.
    + destruct (List.length (results report) =? 0)%nat;
        unfold Msg.none_succeeded, Msg.nothing_processed, Msg.all_succeeded in M;
        discriminate M.
Qed.

Lemma all_succeeded_iff_no_errors_witness :
  (errors Scenario.photos_report = []
   <-> successfully_captioned Scenario.photos_report
       = total_images_found Scenario.photos_report)
  /\ (errors Scenario.photos_report = []
      <-> message Scenario.photos_report
          = Msg.all_succeeded (total_images_found Scenario.photos_report)).
Proof.
  apply (all_succeeded_iff_no_errors Scenario.ready Scenario.photos
           Scenario.photos_report).
  - vm_compute. reflexivity.
  - cbn. lia.
Defined.

(** X13. The fallback message "No images were processed or found." of the
    last [else] branch is never returned: a report without candidates carries
    the "no images with supported extensions" message, and a report with
    candidates one of the three counting messages. *)
Theorem fallback_message_never_returned
    (w : World) (request : ImageCaptionRequest) (report : CaptionSummaryResponse) :
  response w request = inr report ->
  message report <> Msg.nothing_processed
  /\ (total_images_found report = 0%nat ->
      message report = Msg.no_images (folder_location request))
  /\ ((0 < total_images_found report)%nat ->
      message report = Msg.all_succeeded (total_images_found report)
      \/ message report
         = Msg.some_succeeded (successfully_captioned report)
             (total_images_found report)
      \/ message report = Msg.none_succeeded (total_images_found report)).
Proof.
  intros R.
  destruct (returned_report_counts w request report R) as [Hs _].
  assert (Hz : total_images_found report = 0%nat ->
               message report = Msg.no_images (folder_location request)).
  { destruct (returned_report_shape w request report R)
      as (engine & all & _ & _ & Ht & _ & _ & _ & Hm & _).
    cbn in Ht, Hm. rewrite Hm, Ht.
    destruct (image_filenames all); [reflexivity|discriminate]. }
  assert (Hp : (0 < total_images_found report)%nat ->
               message report = Msg.all_succeeded (total_images_found report)
               \/ message report
                  = Msg.some_succeeded (successfully_captioned report)
                      (total_images_found report)
               \/ message report
                  = Msg.none_succeeded (total_images_found report)).
  { intros Hpos. rewrite (returned_report_message w request report R Hpos), Hs.
    unfold base_message. apply Nat.ltb_lt in Hpos. rewrite Hpos.
    destruct (List.length (results report) =? total_images_found report)%nat;
      cbn [andb]; auto.
    destruct (List.length (results report)) as [|n]; cbn; auto. }
  split; [|split; assumption].
  destruct (total_images_found report) as [|n] eqn:T.
  - rewrite (Hz eq_refl). unfold Msg.no_images, Msg.nothing_processed.
    cbn. discriminate.
  - destruct (Hp ltac:(lia)) as [-> | [-> | ->]];
      unfold Msg.all_succeeded, Msg.some_succeeded, Msg.none_succeeded,
        Msg.nothing_processed; discriminate.
Qed.

Lemma fallback_message_never_returned_witness :
  message Scenario.empty_report <> Msg.nothing_processed
  /\ (total_images_found Scenario.empty_report = 0%nat ->
      message Scenario.empty_report = Msg.no_images "/srv/empty")
  /\ ((0 < total_images_found Scenario.empty_report)%nat ->
      message Scenario.empty_report
      = Msg.all_succeeded (total_images_found Scenario.empty_report)
      \/ message Scenario.empty_report
         = Msg.some_succeeded (successfully_captioned Scenario.empty_report)
             (total_images_found Scenario.empty_report)
      \/ message Scenario.empty_report
         = Msg.none_succeeded (total_images_found Scenario.empty_report)).
Proof.
  apply (fallback_message_never_returned Scenario.ready Scenario.empty
           Scenario.empty_report).
  vm_compute. reflexivity.
Defined.

(** ** What the handler asks of the outside world *)

Section Traces.

Variables (w : World) (engine : Engine) (folder_path : string).

Lemma engine_calls_app (t1 t2 : list Event) :
  engine_calls (t1 ++ t2) = (engine_calls t1 ++ engine_calls t2)%list.
Proof. induction t1 as [|[] t1 IH]; cbn; auto. now rewrite IH. Qed.

Lemma engine_calls_file_calls (candidates : list string) :
  engine_calls (flat_map (file_calls w engine folder_path) candidates)
  = decoded_images w folder_path candidates.
Proof.
  unfold decoded_images.
  induction candidates as [|f rest IH]; cbn; auto.
  rewrite engine_calls_app, IH. f_equal.
  destruct (image_open w _) as [?|[?|]]; reflexivity.
Qed.

Lemma listed_file_calls (candidates : list string) :
  listed (flat_map (file_calls w engine folder_path) candidates) = []
  /\ dir_checks (flat_map (file_calls w engine folder_path) candidates) = [].
Proof.
  induction candidates as [|f rest [IH1 IH2]]; cbn; auto.
  destruct (image_open w _) as [?|[?|]]; cbn; auto.
Qed.

Lemma succeeded_le_decoded (candidates : list string) :
  (List.length (succeeded w engine folder_path candidates)
   <= List.length (decoded_images w folder_path candidates)
   <= List.length candidates)%nat.
Proof.
  unfold succeeded, decoded_images, captioned, caption_of.
  induction candidates as [|f rest IH]; cbn; [lia|].
  rewrite length_app.
  destruct (image_open w _) as [?|[img|]]; cbn; try lia.
  destruct (engine img) as [?|out]; cbn; try lia.
  destruct (generated_text_of out); cbn; lia.
Qed.

End Traces.

(** X14. In a request that returns a report the engine is called exactly
    once for each candidate that decodes to an image, in listing order, and
    for nothing else; hence
    [len(results) <= engine calls <= total_images_found <= len(listing)]. *)
Theorem engine_called_once_per_image
    (w : World) (request : ImageCaptionRequest)
    (all_files_in_dir : list string) (report : CaptionSummaryResponse) :
  listdir w (folder_location request) = inr all_files_in_dir ->
  response w request = inr report ->
  engine_calls (calls w request)
  = decoded_images w (folder_location request)
      (image_filenames all_files_in_dir)
  /\ (List.length (results report)
      <= List.length (engine_calls (calls w request)))%nat
  /\ (List.length (engine_calls (calls w request))
      <= total_images_found report)%nat
  /\ (total_images_found report <= List.length all_files_in_dir)%nat.
Proof.
  intros L R.
  destruct (returned_report_shape w request report R)
    as (engine & all' & _ & L' & Ht & _ & Hr & _ & _ & Hc).
  rewrite L in L'. injection L' as <-. cbn in Ht, Hr, Hc.
  rewrite Hc, Ht. cbn [engine_calls]. rewrite engine_calls_file_calls.
  pose proof (succeeded_le_decoded w engine (folder_location request)
                (image_filenames all_files_in_dir)) as [H1 H2].
  rewrite <- (Forall2_length Hr).
  repeat split; auto. apply filter_length_le.
Qed.

Lemma engine_called_once_per_image_witness :
  engine_calls (calls Scenario.ready Scenario.photos) = [Scenario.img_a]
  /\ (List.length (results Scenario.photos_report)
      <= List.length (engine_calls (calls Scenario.ready Scenario.photos)))%nat
  /\ (List.length (engine_calls (calls Scenario.ready Scenario.photos))
      <= total_images_found Scenario.photos_report)%nat
  /\ (total_images_found Scenario.photos_report <= 3)%nat.
Proof.
  apply (engine_called_once_per_image Scenario.ready Scenario.photos
           ["a.jpg"; "b.txt"; "c.png"] Scenario.photos_report);
    reflexivity.
Defined.

(** X15. The handler never descends into subdirectories: whatever the
    request and its outcome, [os.path.isdir] and [os.listdir] are each called
    at most once, and only on [folder_location] itself; a request that returns
    a report called each exactly once. *)
Theorem single_directory_scan (w : World) (request : ImageCaptionRequest) :
  let folder := folder_location request in
  (dir_checks (calls w request) = [] \/ dir_checks (calls w request) = [folder])
  /\ (listed (calls w request) = [] \/ listed (calls w request) = [folder])
  /\ (forall report,
        response w request = inr report ->
        dir_checks (calls w request) = [folder]
        /\ listed (calls w request) = [folder]).
Proof.
  intros folder.
  assert (Hrep : forall report,
             response w request = inr report ->
             dir_checks (calls w request) = [folder]
             /\ listed (calls w request) = [folder]).
  { intros report R.
    destruct (returned_report_shape w request report R)
      as (engine & all & _ & _ & _ & _ & _ & _ & _ & Hc).
    subst folder. rewrite Hc. cbn [dir_checks listed].
    destruct (listed_file_calls w engine (folder_location request)
                (image_filenames all)) as [Hl Hd].
    rewrite Hl, Hd. auto. }
  destruct (response w request) as [e|report] eqn:R.
  - unfold response, calls in *. split; [|split]; [| |discriminate].
    + destruct (captioner w) as [engine|] eqn:H.
      * destruct (isdir w folder) eqn:D.
        -- destruct (listdir w folder) as [e'|all] eqn:L.
           ++ rewrite (run_listing_raises w request engine e' H D L). cbn. auto.
           ++ destruct (run_report w request engine all H D L)
                as (rs & es & _ & _ & E).
              rewrite E in R. discriminate R.
        -- rewrite (run_not_directory w request engine H D). cbn. auto.
      * rewrite (run_unavailable w request H). cbn. auto.
    + destruct (captioner w) as [engine|] eqn:H.
      * destruct (isdir w folder) eqn:D.
        -- destruct (listdir w folder) as [e'|all] eqn:L.
           ++ rewrite (run_listing_raises w request engine e' H D L). cbn. auto.
           ++ destruct (run_report w request engine all H D L)
                as (rs & es & _ & _ & E).
              rewrite E in R. discriminate R.
        -- rewrite (run_not_directory w request engine H D). cbn. auto.
      * rewrite (run_unavailable w request H). cbn. auto.
  - destruct (Hrep report eq_refl) as [-> ->]. auto.
Qed.

Lemma single_directory_scan_witness :
  dir_checks (calls Scenario.ready Scenario.albums) = ["/srv/albums"]
  /\ listed (calls Scenario.ready Scenario.albums) = ["/srv/albums"].
Proof.
  apply (proj2 (proj2 (single_directory_scan Scenario.ready Scenario.albums))
           Scenario.albums_report).
  vm_compute. reflexivity.
Defined.

(** ** Batches compose *)

Section Batches.

Variables (w : World) (engine : Engine) (folder_path : string).

(** What one iteration appends, and the calls it makes, do not depend on the
    accumulators it is given. *)
Lemma process_file_frame (filename : string) :
  exists t,
    (exists r, forall acc,
        process_file w engine folder_path filename acc
        = (inr (append_result acc r), t))
    \/ (exists e, forall acc,
          process_file w engine folder_path filename acc
          = (inr (append_error acc e), t)).
Proof.
  exists (file_calls w engine folder_path filename).
  unfold file_calls. run_file.
  destruct (image_open w _) as [e|[img|]]; cbn.
  - right. destruct (is_FileNotFoundError e); eexists; intros acc; reflexivity.
  - destruct (engine img) as [e|out]; cbn;
      [right; eexists; intros acc; reflexivity|].
    destruct out as [|[]|z|s|[|x rest]|l|l]; cbn;
      try (right; eexists; intros acc; reflexivity).
    + destruct (negb (z =? 0)%Z); right; eexists; intros acc; reflexivity.
    + destruct (negb (s =? "")); right; eexists; intros acc; reflexivity.
    + destruct x as [| | | | | |d]; cbn;
        try (right; eexists; intros acc; reflexivity).
      destruct (Py.lookup "generated_text" d) as [v|]; cbn;
        [|right; eexists; intros acc; reflexivity].
      destruct v; cbn;
        first [right; eexists; intros acc; reflexivity
              |left; eexists; intros acc; reflexivity].
    + destruct (negb (List.length l =? 0)%nat);
        right; eexists; intros acc; reflexivity.
    + destruct (negb (List.length l =? 0)%nat);
        right; eexists; intros acc; reflexivity.
  - right. eexists. intros acc. reflexivity.
Qed.

Lemma process_files_frame (filenames : list string) :
  exists rs es t,
    forall acc,
      process_files w engine folder_path filenames acc
      = (inr ((fst acc ++ rs)%list, (snd acc ++ es)%list), t).
Proof.
  induction filenames as [|f rest (rs & es & t & IH)].
  - exists [], [], []. intros [a b]. cbn. now rewrite !app_nil_r.
  - destruct (process_file_frame f) as (tf & [[r Hf] | [e Hf]]).
    + exists (r :: rs), es, (tf ++ t)%list. intros acc. cbn.
      rewrite Hf. unfold bind. rewrite IH. cbn. now rewrite <- app_assoc.
    + exists rs, (e :: es), (tf ++ t)%list. intros acc. cbn.
      rewrite Hf. unfold bind. rewrite IH. cbn. now rewrite <- app_assoc.
Qed.

Lemma process_files_app (l1 l2 : list string) :
  forall acc,
    process_files w engine folder_path (l1 ++ l2) acc
    = (acc' <- process_files w engine folder_path l1 acc ;;
       process_files w engine folder_path l2 acc').
Proof.
  induction l1 as [|f rest IH]; intros acc; cbn.
  - unfold bind, ret. now destruct (process_files w engine folder_path l2 acc).
  - unfold bind at 1 3.
    destruct (process_file w engine folder_path f acc) as [[e|a] t];
      [reflexivity|].
    rewrite IH. unfold bind.
    destruct (process_files w engine folder_path rest a) as [[e|a'] t'];
      [reflexivity|].
    destruct (process_files w engine folder_path l2 a') as [r t''].
    now rewrite app_assoc.
Qed.

End Batches.

(** X16. The loop only ever extends its accumulators, and what it adds does
    not depend on what they held: processing [l1 ++ l2] from any accumulators
    keeps their entries in front and appends the results and errors of [l1]
    followed by those of [l2], each as computed from empty accumulators; the
    calls made are those of [l1] followed by those of [l2]. *)
Theorem batches_concatenate
    (w : World) (engine : Engine) (folder_path : string)
    (l1 l2 : list string) :
  exists rs1 es1 t1 rs2 es2 t2,
    process_files w engine folder_path l1 ([], []) = (inr (rs1, es1), t1)
    /\ process_files w engine folder_path l2 ([], []) = (inr (rs2, es2), t2)
    /\ forall acc,
         process_files w engine folder_path (l1 ++ l2) acc
         = (inr ((fst acc ++ rs1 ++ rs2)%list, (snd acc ++ es1 ++ es2)%list),
            (t1 ++ t2)%list).
Proof.
  destruct (process_files_frame w engine folder_path l1) as (rs1 & es1 & t1 & H1).
  destruct (process_files_frame w engine folder_path l2) as (rs2 & es2 & t2 & H2).
  exists rs1, es1, t1, rs2, es2, t2.
  split; [exact (H1 ([], []))|]. split; [exact (H2 ([], []))|].
  intros acc. rewrite process_files_app, H1. unfold bind. rewrite H2. cbn.
  now rewrite !app_assoc.
Qed.
